(** * TandilV4: subscription bot (src/index.js)

    A shallow embedding of the Telegram subscription bot and the proofs of
    the properties its specification states about it.

    Conventions of the embedding.
    - A JavaScript number that holds an identity, a day count or a
      millisecond timestamp is an integer of [Z]; [NaN] is kept apart
      ([JsNum]) because [Number(...)] can produce it.
    - [db.users] is a JavaScript object: a finite map from property keys
      (strings) to records, [gmap string UserRecord]; a numeric identity
      indexes it through its decimal rendering ([String_of_num]).
    - The file [db.json] is [disk : option Db]: [None] is a file that is
      missing or does not parse, [Some db] a file holding
      [JSON.stringify(db)].
    - Handlers are computations of the monad [M]: they thread the world
      (disk, clock reads, trace of transport calls and file writes) and may
      throw. What the environment answers (clock values, transport
      outcomes, whether the file can be written) is a parameter [Env].
    - A handler is run as one step. Every handler but the sweep reads and
      writes the ledger with no [await] in between, so what it does to the
      file is one step in the source too. The sweep keeps the ledger it
      loaded across its awaits: [checkExpirations] is the sweep with
      nothing else running meanwhile, [checkExpirations_async] the sweep
      among the handlers of other updates. *)

From Stdlib Require Import ZArith String Ascii Bool Lia.
From Stdlib Require Import Decimal DecimalString DecimalZ DecimalPos.
From stdpp Require Import base option gmap strings list fin_maps.

Open Scope string_scope.
Open Scope Z_scope.

(** ** JavaScript numbers and strings *)

Inductive JsNum : Type :=
| NaN : JsNum
| Num (z : Z) : JsNum.

#[global] Instance JsNum_eq_dec : EqDecision JsNum.
Proof. solve_decision. Defined.

(** [a === b] on numbers: [NaN] equals nothing. *)
Definition strict_eq (a b : JsNum) : bool :=
  match a, b with
  | Num x, Num y => x =? y
  | _, _ => false
  end.

(** Truthiness of a number: [0] and [NaN] are falsy. *)
Definition truthy_num (a : JsNum) : bool :=
  match a with
  | Num z => negb (z =? 0)
  | NaN => false
  end.

(** Truthiness of a field that holds [null]/[undefined] or an integer. *)
Definition truthy (o : option Z) : bool :=
  match o with
  | Some z => negb (z =? 0)
  | None => false
  end.

(** [x || 0] on such a field. *)
Definition or0 (o : option Z) : Z :=
  match o with
  | Some z => z
  | None => 0
  end.

(** [String(n)] for an integer: decimal digits, a minus sign when negative
    (Telegram identities and millisecond timestamps stay far below 10^21,
    where JavaScript would switch to exponent notation). *)
Definition String_of_Z (z : Z) : string :=
  NilZero.string_of_int (Z.to_int z).

Definition String_of_num (n : JsNum) : string :=
  match n with
  | NaN => "NaN"
  | Num z => String_of_Z z
  end.

(** ASCII white space skipped by [Number(s)]: TAB, LF, VT, FF, CR, SP. *)
Definition is_ws (c : ascii) : bool :=
  let n := nat_of_ascii c in
  ((9 <=? n)%nat && (n <=? 13)%nat) || (n =? 32)%nat.

Fixpoint trim_start (s : string) : string :=
  match s with
  | EmptyString => EmptyString
  | String c s' => if is_ws c then trim_start s' else s
  end.

Fixpoint trim_end (s : string) : string :=
  match s with
  | EmptyString => EmptyString
  | String c s' =>
      match trim_end s' with
      | EmptyString => if is_ws c then EmptyString else String c EmptyString
      | r => String c r
      end
  end.

Definition trim (s : string) : string := trim_end (trim_start s).

Definition digits_value (s : string) : JsNum :=
  match s with
  | EmptyString => NaN
  | _ => match NilEmpty.uint_of_string s with
         | Some d => Num (Z.of_uint d)
         | None => NaN
         end
  end.

Definition neg_num (n : JsNum) : JsNum :=
  match n with
  | NaN => NaN
  | Num z => Num (- z)
  end.

(** [Number(s)] on the integer fragment of the language's numeric strings:
    optional white space, an optional sign, decimal digits; the empty (or
    blank) string is [0]. Anything else is [NaN] here; that is exact for
    text that is no numeral, while numerals with a fraction, an exponent, a
    radix prefix or [Infinity] (which [getReferralCode] and [buildCallback]
    never produce) are outside the integer model. *)
Definition Number_of_string (s : string) : JsNum :=
  match trim s with
  | EmptyString => Num 0
  | String c r =>
      if Ascii.eqb c "-" then neg_num (digits_value r)
      else if Ascii.eqb c "+" then digits_value r
      else digits_value (String c r)
  end.

(** [Number(x)] where [x] may be [undefined] (a missing array element). *)
Definition Number_of (x : option string) : JsNum :=
  match x with
  | Some s => Number_of_string s
  | None => NaN
  end.

(** [s.split(sep)] for a one-character separator. *)
Fixpoint split (sep : ascii) (s : string) : list string :=
  match s with
  | EmptyString => [EmptyString]
  | String c s' =>
      if Ascii.eqb c sep then EmptyString :: split sep s'
      else match split sep s' with
           | h :: t => String c h :: t
           | [] => [String c EmptyString]
           end
  end.

Fixpoint string_forall (P : ascii -> bool) (s : string) : bool :=
  match s with
  | EmptyString => true
  | String c s' => P c && string_forall P s'
  end.

(** [s.startsWith(p)] and the removal of that prefix. *)
Fixpoint strip_prefix (p s : string) : option string :=
  match p, s with
  | EmptyString, _ => Some s
  | String a p', String b s' => if Ascii.eqb a b then strip_prefix p' s' else None
  | String _ _, EmptyString => None
  end.

(** ** Callback payloads (index.js 80-91) *)

Record Callback := mkCallback { action : string; userId : JsNum }.

Definition buildCallback (action : string) (userId : Z) : string :=
  action +:+ ":" +:+ String_of_Z userId.

(** [const [action, userId] = data.split(':')]: the first two segments;
    [split] always yields a first one. *)
Definition parseCallback (data : string) : Callback :=
  let parts := split ":" data in
  {| action := default EmptyString (parts !! 0%nat);
     userId := Number_of (parts !! 1%nat) |}.

Definition getReferralCode (userId : Z) : string :=
  "ref_" +:+ String_of_Z userId.

(** ** The ledger (index.js 29-57) *)

Record UserRecord := mkUser {
  expiresAt : option Z;        (* null | timestamp in ms *)
  referredBy : option Z;       (* null | user identity *)
  referralsCount : option Z;   (* may be missing in an old file *)
  firstPaymentDone : bool;     (* missing reads as false *)
  totalPaidCycles : option Z;
  bonusDays : option Z
}.

#[global] Instance UserRecord_eq_dec : EqDecision UserRecord.
Proof. solve_decision. Defined.

Record Db := mkDb { users : gmap string UserRecord }.

#[global] Instance Db_eq_dec : EqDecision Db.
Proof. solve_decision. Defined.

(** The value [loadDb] falls back to: [{ users: {} }]. *)
Definition empty_db : Db := {| users := ∅ |}.

(** The record [ensureUser] creates. *)
Definition zero_user : UserRecord :=
  {| expiresAt := None; referredBy := None; referralsCount := Some 0;
     firstPaymentDone := false; totalPaidCycles := Some 0; bonusDays := Some 0 |}.

Definition set_expiresAt (v : option Z) (u : UserRecord) : UserRecord :=
  {| expiresAt := v; referredBy := referredBy u;
     referralsCount := referralsCount u; firstPaymentDone := firstPaymentDone u;
     totalPaidCycles := totalPaidCycles u; bonusDays := bonusDays u |}.

Definition set_referredBy (v : option Z) (u : UserRecord) : UserRecord :=
  {| expiresAt := expiresAt u; referredBy := v;
     referralsCount := referralsCount u; firstPaymentDone := firstPaymentDone u;
     totalPaidCycles := totalPaidCycles u; bonusDays := bonusDays u |}.

Definition set_referralsCount (v : option Z) (u : UserRecord) : UserRecord :=
  {| expiresAt := expiresAt u; referredBy := referredBy u;
     referralsCount := v; firstPaymentDone := firstPaymentDone u;
     totalPaidCycles := totalPaidCycles u; bonusDays := bonusDays u |}.

Definition set_firstPaymentDone (v : bool) (u : UserRecord) : UserRecord :=
  {| expiresAt := expiresAt u; referredBy := referredBy u;
     referralsCount := referralsCount u; firstPaymentDone := v;
     totalPaidCycles := totalPaidCycles u; bonusDays := bonusDays u |}.

Definition set_totalPaidCycles (v : option Z) (u : UserRecord) : UserRecord :=
  {| expiresAt := expiresAt u; referredBy := referredBy u;
     referralsCount := referralsCount u; firstPaymentDone := firstPaymentDone u;
     totalPaidCycles := v; bonusDays := bonusDays u |}.

Definition set_bonusDays (v : option Z) (u : UserRecord) : UserRecord :=
  {| expiresAt := expiresAt u; referredBy := referredBy u;
     referralsCount := referralsCount u; firstPaymentDone := firstPaymentDone u;
     totalPaidCycles := totalPaidCycles u; bonusDays := v |}.

(** [db.users[key]] and the write of a record object under that key. *)
Definition get_user (db : Db) (key : string) : option UserRecord :=
  users db !! key.

Definition put_user (db : Db) (key : string) (u : UserRecord) : Db :=
  {| users := <[key := u]> (users db) |}.

(** [ensureUser(db, userId)]: the record under the identity's key, created
    with zero values when the key is absent; the updated object and the
    record are returned (in the source the record is a reference into
    [db], so every later field write is followed here by [put_user]). *)
Definition ensureUser (db : Db) (userId : JsNum) : Db * UserRecord :=
  match get_user db (String_of_num userId) with
  | Some u => (db, u)
  | None => (put_user db (String_of_num userId) zero_user, zero_user)
  end.

(** ** Configuration and constants (index.js 7-17) *)

Definition SUBSCRIPTION_DAYS : Z := 30.
Definition REFERRAL_BONUS_DAYS : Z := 5.
Definition DAY_MS : Z := 24 * 60 * 60 * 1000.

Record Config := mkConfig {
  CHANNEL_ID : option string;           (* process.env.CHANNEL_ID *)
  CHANNEL_INVITE_LINK : option string;  (* the static fallback invite *)
  ADMIN_CHAT_ID : JsNum                 (* Number(env || 0) *)
}.

(** Truthiness of an environment string: [undefined] and the empty string are falsy. *)
Definition truthy_str (o : option string) : bool :=
  match o with
  | Some EmptyString => false
  | Some _ => true
  | None => false
  end.

(** ** Transport calls and the world *)

(** [formatDate(ts)]: the es-AR rendering is not modelled; a formatted
    date is represented by the timestamp it renders. *)
Definition formatDate (ts : Z) : Z := ts.

(** The texts the bot sends, by template and the values put into them. *)
Inductive Msg : Type :=
| MsgReferralCredited
| MsgNewReferral (username : string) (userId : Z)
| MsgExpired
| MsgApproved (formattedDate : Z) (inviteLink : option string)
| MsgGuide
| MsgRejected
| MsgWelcome
| MsgWhoami (userId : Z)
| MsgNoSubscription
| MsgAlreadyExpired
| MsgStatus (formattedDate : Z) (daysLeft : Z)
| MsgReferidos (code : string) (botUsername : string) (count : Z)
| MsgAdminPanel (totalUsers : Z) (actives : Z)
| MsgPayInstructions
| MsgNoAdmin
| MsgProofReceived
| MsgReview (name : string) (username : string) (userId : Z) (txid : option string).

Inductive CbText : Type := CbDenied | CbSent | CbRejected | CbError.

Inductive Status : Type := StApproved (formattedDate : Z) | StRejected.

Inductive TgCall : Type :=
| sendMessage (chat : JsNum) (m : Msg)
| sendPhoto (chat : JsNum) (fileId : string) (caption : Msg)
| sendDocument (chat : JsNum) (fileId : string) (caption : Msg)
| reply (m : Msg)
| replyWithPhoto
| answerCbQuery (text : CbText) (show_alert : bool)
| editMessageCaption (extra : Status)
| editMessageText (extra : Status)
| createChatInviteLink (chat : string) (expire_date : Z) (member_limit : Z)
| banChatMember (chat : string) (user : JsNum)
| unbanChatMember (chat : string) (user : JsNum).

Inductive Error : Type :=
| FsError                 (* writeFileSync threw *)
| TgError (c : TgCall).   (* a transport promise rejected *)

(** What a handler did to the outside, in order. *)
Inductive Event : Type :=
| TgEv (c : TgCall) (ok : bool)
| WriteEv (db : Db) (ok : bool).

Record World := mkWorld {
  disk : option Db;      (* db.json *)
  ticks : nat;           (* number of Date.now() reads so far *)
  trace : list Event
}.

(** The environment's answers. [clock n] is what the [n]-th read of
    [Date.now()] returns; [transport n c] is the outcome of call [c] issued
    when [n] events have happened ([None]: the promise rejects; [Some s]:
    it resolves, [s] being the [invite_link] for [createChatInviteLink]);
    [fs_write_ok n] says whether a write of [db.json] issued then
    succeeds. *)
Record Env := mkEnv {
  cfg : Config;
  BOT_USERNAME : string;
  clock : nat -> Z;
  transport : nat -> TgCall -> option string;
  fs_write_ok : nat -> bool
}.

(** ** The monad of handlers: state and exceptions *)

Inductive Outcome (A : Type) : Type :=
| Ret (a : A)
| Throw (e : Error).
Arguments Ret {A} a.
Arguments Throw {A} e.

Definition M (A : Type) : Type := World -> Outcome A * World.

#[global] Instance M_ret : MRet M := fun A a w => (Ret a, w).

#[global] Instance M_bind : MBind M := fun A B f m w =>
  match m w with
  | (Ret a, w') => f a w'
  | (Throw e, w') => (Throw e, w')
  end.

(** [try { m } catch (e) { h e }] *)
Definition try_catch {A} (m : M A) (h : Error -> M A) : M A := fun w =>
  match m w with
  | (Ret a, w') => (Ret a, w')
  | (Throw e, w') => h e w'
  end.

Definition ignore {A} (m : M A) : M unit := _ ← m; mret tt.

Definition log_event (e : Event) (w : World) : World :=
  {| disk := disk w; ticks := ticks w; trace := trace w ++ [e] |}.

(** [loadDb()]: the parsed file, or [{ users: {} }] when reading or parsing
    throws. *)
Definition loadDb : M Db := fun w => (Ret (default empty_db (disk w)), w).

(** [saveDb(db)]: overwrites the file, or throws. A write that throws is
    taken to be refused when the file is opened (no permission, read-only
    volume), which leaves the file as it was. [fs.writeFileSync] can also
    fail after the open has truncated the file; what is left of the file
    then is outside this model. *)
Definition saveDb (env : Env) (db : Db) : M unit := fun w =>
  if fs_write_ok env (length (trace w))
  then (Ret tt, {| disk := Some db; ticks := ticks w;
                   trace := trace w ++ [WriteEv db true] |})
  else (Throw FsError, log_event (WriteEv db false) w).

(** [getNow()] *)
Definition getNow (env : Env) : M Z := fun w =>
  (Ret (clock env (ticks w)),
   {| disk := disk w; ticks := S (ticks w); trace := trace w |}).

(** [await] of a transport call. *)
Definition tg (env : Env) (c : TgCall) : M string := fun w =>
  match transport env (length (trace w)) c with
  | Some r => (Ret r, log_event (TgEv c true) w)
  | None => (Throw (TgError c), log_event (TgEv c false) w)
  end.

(** [try { await call } catch (e) { console.error(...) }] *)
Definition tg_logged (env : Env) (c : TgCall) : M unit :=
  try_catch (ignore (tg env c)) (fun _ => mret tt).

(** ** Subscription logic (index.js 93-229) *)

(** The stacking-or-reset rule both engines apply to [expiresAt]:
    [if (u.expiresAt && u.expiresAt > now) u.expiresAt += ms;
     else u.expiresAt = now + ms]. *)
Definition extend (now ms : Z) (old : option Z) : Z :=
  if truthy old && (now <? or0 old) then or0 old + ms else now + ms.

(** [grantSubscription(userId, baseDays)]; the default of [baseDays] is
    [SUBSCRIPTION_DAYS], and that is what the only caller passes. *)
Definition grantSubscription (env : Env) (userId : JsNum) (baseDays : Z) : M Z :=
  db ← loadDb;
  now ← getNow env;
  let '(db, user) := ensureUser db userId in
  let bonus := or0 (bonusDays user) in
  let totalDays := baseDays + bonus in
  let user := set_bonusDays (Some 0) user in
  let user := set_expiresAt (Some (extend now (totalDays * DAY_MS) (expiresAt user))) user in
  let user := set_totalPaidCycles (Some (or0 (totalPaidCycles user) + 1)) user in
  let db := put_user db (String_of_num userId) user in
  _ ← saveDb env db;
  mret (or0 (expiresAt user)).

(** [db.users[user.referredBy]] guarded by [user.referredBy &&]. *)
Definition referrer_of (db : Db) (user : UserRecord) : option (Z * UserRecord) :=
  match referredBy user with
  | Some r =>
      if negb (r =? 0) then
        match get_user db (String_of_Z r) with
        | Some refUser => Some (r, refUser)
        | None => None
        end
      else None
  | None => None
  end.

(** [handleReferralOnFirstPayment(userId)]. The write of
    [firstPaymentDone] goes into [db] before the referrer is looked up, as
    both are references into the same object. *)
Definition handleReferralOnFirstPayment (env : Env) (userId : JsNum) : M unit :=
  db ← loadDb;
  let '(db, user) := ensureUser db userId in
  if firstPaymentDone user then mret tt
  else
    let user := set_firstPaymentDone true user in
    let db := put_user db (String_of_num userId) user in
    match referrer_of db user with
    | Some (r, refUser) =>
        let refUser := set_referralsCount (Some (or0 (referralsCount refUser) + 1)) refUser in
        now ← getNow env;
        let extraMs := REFERRAL_BONUS_DAYS * DAY_MS in
        let refUser := set_expiresAt (Some (extend now extraMs (expiresAt refUser))) refUser in
        let db := put_user db (String_of_Z r) refUser in
        _ ← saveDb env db;
        tg_logged env (sendMessage (Num r) MsgReferralCredited)
    | None => saveDb env db
    end.

(** [createUniqueInviteLink(userId, expiresAt)] *)
Definition createUniqueInviteLink (env : Env) (userId : JsNum) (expiresAt : Z)
  : M (option string) :=
  match CHANNEL_ID (cfg env) with
  | Some (String c ch) =>
      try_catch
        (now ← getNow env;
         let nowSec := now / 1000 in
         let expiresSec := expiresAt / 1000 in
         let maxLifetimeSec := 24 * 60 * 60 in
         let expireDate := Z.min expiresSec (nowSec + maxLifetimeSec) in
         link ← tg env (createChatInviteLink (String c ch) expireDate 1);
         mret (Some link))
        (fun _ => mret (CHANNEL_INVITE_LINK (cfg env)))
  | _ => mret (CHANNEL_INVITE_LINK (cfg env))
  end.

(** The body of the loop of [checkExpirations] over
    [Object.entries(db.users)]; [changed] is the loop's flag. *)
Fixpoint sweep_loop (env : Env) (channel : string) (now : Z)
    (entries : list (string * UserRecord)) (db : Db) (changed : bool)
  : M (Db * bool) :=
  match entries with
  | [] => mret (db, changed)
  | (userIdStr, data) :: rest =>
      let userId := Number_of_string userIdStr in
      if negb (truthy (expiresAt data)) then sweep_loop env channel now rest db changed
      else if or0 (expiresAt data) <=? now then
        _ ← try_catch
              (_ ← tg env (banChatMember channel userId);
               _ ← tg env (unbanChatMember channel userId);
               mret tt)
              (fun _ => mret tt);
        let db := {| users := alter (set_expiresAt None) userIdStr (users db) |} in
        _ ← tg_logged env (sendMessage userId MsgExpired);
        sweep_loop env channel now rest db true
      else sweep_loop env channel now rest db changed
  end.

(** [checkExpirations()], run with no other handler in between (see
    [checkExpirations_async] for the sweep among other handlers). The
    entries are visited in the order of [map_to_list]; JavaScript's own
    order of property keys only permutes the transport calls. *)
Definition checkExpirations (env : Env) : M unit :=
  match CHANNEL_ID (cfg env) with
  | Some (String c ch) =>
      db ← loadDb;
      now ← getNow env;
      '(db, changed) ← sweep_loop env (String c ch) now (map_to_list (users db)) db false;
      if changed : bool then saveDb env db else mret tt
  | _ => mret tt
  end.

(** [checkExpirations] above is the sweep when nothing else runs while it
    waits. The source awaits three transport calls for each lapsed record
    (l.205, 206, 217) between [loadDb] (l.192) and [saveDb] (l.228): at an
    [await] the function is suspended, and until the promise settles the
    event loop runs the handlers of the updates that arrive. [others] is
    what those handlers do to the world while one call is pending (their
    own exceptions end in the framework, not in the suspended function).
    The request goes out first; the world the function resumes in is the
    one the others left. *)
Definition await (env : Env) (others : World -> World) (c : TgCall) : M string :=
  fun w => let '(r, w1) := tg env c w in (r, others w1).

Definition await_logged (env : Env) (others : World -> World) (c : TgCall) : M unit :=
  try_catch (ignore (await env others c)) (fun _ => mret tt).

(** The loop of [checkExpirations], every [await] written out. *)
Fixpoint sweep_loop_async (env : Env) (others : World -> World) (channel : string)
    (now : Z) (entries : list (string * UserRecord)) (db : Db) (changed : bool)
  : M (Db * bool) :=
  match entries with
  | [] => mret (db, changed)
  | (userIdStr, data) :: rest =>
      let userId := Number_of_string userIdStr in
      if negb (truthy (expiresAt data))
      then sweep_loop_async env others channel now rest db changed
      else if or0 (expiresAt data) <=? now then
        _ ← try_catch
              (_ ← await env others (banChatMember channel userId);
               _ ← await env others (unbanChatMember channel userId);
               mret tt)
              (fun _ => mret tt);
        let db := {| users := alter (set_expiresAt None) userIdStr (users db) |} in
        _ ← await_logged env others (sendMessage userId MsgExpired);
        sweep_loop_async env others channel now rest db true
      else sweep_loop_async env others channel now rest db changed
  end.

(** [checkExpirations()] among other handlers: [db] is the object loaded
    at l.192, and it is that object which l.228 writes. *)
Definition checkExpirations_async (env : Env) (others : World -> World) : M unit :=
  match CHANNEL_ID (cfg env) with
  | Some (String c ch) =>
      db ← loadDb;
      now ← getNow env;
      '(db, changed) ← sweep_loop_async env others (String c ch) now
                         (map_to_list (users db)) db false;
      if changed : bool then saveDb env db else mret tt
  | _ => mret tt
  end.

(** ** Commands (index.js 231-371) *)

Record StartCtx := mkStartCtx {
  start_from : Z;                      (* ctx.from.id *)
  start_username : option string;      (* ctx.from.username *)
  startPayload : option string         (* ctx.startPayload *)
}.

(** [ctx.from.username ? '@' + ctx.from.username : '(sin username)'] *)
Definition display_username (u : option string) : string :=
  match u with
  | Some (String c s) => "@" +:+ String c s
  | _ => "(sin username)"
  end.

(** [payload && payload.startsWith('ref_')], then
    [Number(payload.replace('ref_', ''))]: the first occurrence of [ref_]
    is the prefix just tested. [None] when the guard fails. *)
Definition referral_of_payload (payload : option string) : option JsNum :=
  match payload with
  | Some p =>
      match strip_prefix "ref_" p with
      | Some rest => Some (Number_of_string rest)
      | None => None
      end
  | None => None
  end.

(** [bot.start] *)
Definition start (env : Env) (ctx : StartCtx) : M unit :=
  let userId := start_from ctx in
  let username := display_username (start_username ctx) in
  db ← loadDb;
  let '(db, user) := ensureUser db (Num userId) in
  _ ← match referral_of_payload (startPayload ctx) with
      | Some (Num refId) =>
          if negb (refId =? 0) && negb (refId =? userId) then
            if negb (truthy (referredBy user)) then
              let user := set_referredBy (Some refId) user in
              let db := put_user db (String_of_Z userId) user in
              _ ← saveDb env db;
              tg_logged env (sendMessage (Num refId) (MsgNewReferral username userId))
            else mret tt
          else mret tt
      | _ => mret tt
      end;
  ignore (tg env (reply MsgWelcome)).

(** [/whoami] *)
Definition whoami (env : Env) (from : Z) : M unit :=
  ignore (tg env (reply (MsgWhoami from))).

(** [Math.ceil(a / b)] for [b > 0]. *)
Definition ceil_div (a b : Z) : Z := - ((- a) / b).

(** [/status] *)
Definition status (env : Env) (from : Z) : M unit :=
  db ← loadDb;
  match get_user db (String_of_Z from) with
  | Some user =>
      if negb (truthy (expiresAt user)) then ignore (tg env (reply MsgNoSubscription))
      else
        now ← getNow env;
        let msLeft := or0 (expiresAt user) - now in
        if msLeft <=? 0 then ignore (tg env (reply MsgAlreadyExpired))
        else
          let daysLeft := ceil_div msLeft DAY_MS in
          ignore (tg env (reply (MsgStatus (formatDate (or0 (expiresAt user))) daysLeft)))
  | None => ignore (tg env (reply MsgNoSubscription))
  end.

(** [/referidos]: [ensureUser] without a save. *)
Definition referidos (env : Env) (from : Z) : M unit :=
  db ← loadDb;
  let '(db, user) := ensureUser db (Num from) in
  let code := getReferralCode from in
  let username := match BOT_USERNAME env with
                  | EmptyString => "TuBot"
                  | s => s
                  end in
  ignore (tg env (reply (MsgReferidos code username (or0 (referralsCount user))))).

(** [/admin] *)
Definition admin (env : Env) (from : Z) : M unit :=
  if negb (strict_eq (Num from) (ADMIN_CHAT_ID (cfg env))) then mret tt
  else
    db ← loadDb;
    let totalUsers := Z.of_nat (size (users db)) in
    now ← getNow env;
    let actives :=
      Z.of_nat (length (filter
        (fun kv : string * UserRecord =>
           Is_true (truthy (expiresAt kv.2) && (now <? or0 (expiresAt kv.2))))
        (map_to_list (users db)))) in
    ignore (tg env (reply (MsgAdminPanel totalUsers actives))).

(** [/pagar] *)
Definition pagar (env : Env) : M unit :=
  _ ← tg env (reply MsgPayInstructions);
  tg_logged env replyWithPhoto.

(** ** Proof submission (index.js 373-439) *)

Record ProofCtx := mkProofCtx {
  proof_from : Z;
  proof_is_bot : bool;               (* ctx.from.is_bot *)
  proof_private : bool;              (* ctx.chat.type === 'private' *)
  proof_username : option string;
  proof_first_name : option string;
  proof_last_name : option string;
  proof_text : option string;        (* ctx.message.text *)
  proof_photo : option string;       (* file_id of the last photo size *)
  proof_document : option string     (* ctx.message.document.file_id *)
}.

(** [[first, last].filter(Boolean).join(' ') || '(sin nombre)'] *)
Definition display_name (first last : option string) : string :=
  match truthy_str first, truthy_str last with
  | true, true => default EmptyString first +:+ " " +:+ default EmptyString last
  | true, false => default EmptyString first
  | false, true => default EmptyString last
  | false, false => "(sin nombre)"
  end.

Definition starts_with_slash (t : option string) : bool :=
  match t with
  | Some (String c _) => Ascii.eqb c "/"
  | _ => false
  end.

(** [bot.on(['photo', 'document', 'text'])]; [next()] hands the update to
    handlers that follow, of which there is none with an effect. *)
Definition on_proof (env : Env) (ctx : ProofCtx) : M unit :=
  if proof_is_bot ctx then mret tt
  else if negb (proof_private ctx) then mret tt
  else if starts_with_slash (proof_text ctx) then mret tt
  else
    let userId := proof_from ctx in
    let username := display_username (proof_username ctx) in
    let name := display_name (proof_first_name ctx) (proof_last_name ctx) in
    let adminId := ADMIN_CHAT_ID (cfg env) in
    if negb (truthy_num adminId) then ignore (tg env (reply MsgNoAdmin))
    else
      _ ← tg env (reply MsgProofReceived);
      match proof_photo ctx, proof_document ctx, proof_text ctx with
      | Some fileId, _, _ =>
          ignore (tg env (sendPhoto adminId fileId (MsgReview name username userId None)))
      | None, Some fileId, _ =>
          ignore (tg env (sendDocument adminId fileId (MsgReview name username userId None)))
      | None, None, Some (String c t) =>
          ignore (tg env (sendMessage adminId
                            (MsgReview name username userId (Some (String c t)))))
      | _, _, _ => mret tt
      end.

(** ** Approve / reject callbacks (index.js 441-524) *)

Inductive MsgKind : Type := MediaMsg | TextMsg | OtherMsg.

Record CbCtx := mkCbCtx {
  cb_data : string;      (* ctx.callbackQuery.data *)
  cb_from : Z;           (* ctx.from.id *)
  cb_msg : MsgKind       (* photo or document, text, neither *)
}.

Definition appendStatus (env : Env) (k : MsgKind) (extra : Status) : M unit :=
  match k with
  | MediaMsg => ignore (tg env (editMessageCaption extra))
  | TextMsg => ignore (tg env (editMessageText extra))
  | OtherMsg => mret tt
  end.

(** [bot.on('callback_query')] *)
Definition callback_query (env : Env) (ctx : CbCtx) : M unit :=
  try_catch
    (if negb (strict_eq (Num (cb_from ctx)) (ADMIN_CHAT_ID (cfg env))) then
       ignore (tg env (answerCbQuery CbDenied true))
     else
       let cb := parseCallback (cb_data ctx) in
       if String.eqb (action cb) "approve" then
         expiresAt ← grantSubscription env (userId cb) SUBSCRIPTION_DAYS;
         _ ← handleReferralOnFirstPayment env (userId cb);
         inviteLink ← createUniqueInviteLink env (userId cb) expiresAt;
         let formattedDate := formatDate expiresAt in
         _ ← tg env (sendMessage (userId cb) (MsgApproved formattedDate inviteLink));
         _ ← tg env (sendMessage (userId cb) MsgGuide);
         _ ← appendStatus env (cb_msg ctx) (StApproved formattedDate);
         ignore (tg env (answerCbQuery CbSent false))
       else if String.eqb (action cb) "reject" then
         _ ← tg env (sendMessage (userId cb) MsgRejected);
         _ ← appendStatus env (cb_msg ctx) StRejected;
         ignore (tg env (answerCbQuery CbRejected false))
       else mret tt)
    (fun _ => tg_logged env (answerCbQuery CbError true)).

(** ** The bot as a transition system *)

(** Every update the process reacts to, and the timer tick of the sweep
    (run once after launch and then every 15 minutes). *)
Inductive Op : Type :=
| OpStart (ctx : StartCtx)
| OpWhoami (from : Z)
| OpStatus (from : Z)
| OpReferidos (from : Z)
| OpAdmin (from : Z)
| OpPagar
| OpProof (ctx : ProofCtx)
| OpCallback (ctx : CbCtx)
| OpSweep.

Definition handler (env : Env) (op : Op) : M unit :=
  match op with
  | OpStart ctx => start env ctx
  | OpWhoami from => whoami env from
  | OpStatus from => status env from
  | OpReferidos from => referidos env from
  | OpAdmin from => admin env from
  | OpPagar => pagar env
  | OpProof ctx => on_proof env ctx
  | OpCallback ctx => callback_query env ctx
  | OpSweep => checkExpirations env
  end.

(** What the store shows to the next [loadDb]. *)
Definition ledger (w : World) : gmap string UserRecord :=
  users (default empty_db (disk w)).

(** ** Vocabulary of the statements *)

Definition is_digit (c : ascii) : bool :=
  let n := nat_of_ascii c in (48 <=? n)%nat && (n <=? 57)%nat.

Definition not_char (x : ascii) (c : ascii) : bool := negb (Ascii.eqb c x).

(** The stacking rule in the words of the specification: from the old
    expiration when it is present and later than [now], from [now]
    otherwise. *)
Definition stacked (now ms : Z) (old : option Z) : Z :=
  match old with
  | Some t => if now <? t then t + ms else now + ms
  | None => now + ms
  end.

(** Whether a transport call resolved. *)
Definition resolved (r : option string) : bool :=
  match r with Some _ => true | None => false end.

(** The event is an acknowledgement of a button click. *)
Definition is_ack (e : Event) : Prop :=
  exists text alert ok, e = TgEv (answerCbQuery text alert) ok.

(** The test of the sweep: [data.expiresAt] is truthy and [<= now]. *)
Definition stale (now : Z) (u : UserRecord) : bool :=
  truthy (expiresAt u) && (or0 (expiresAt u) <=? now).

(** What one pass of the loop of the sweep does to a record. *)
Definition sweep_record (now : Z) (u : UserRecord) : UserRecord :=
  if stale now u then set_expiresAt None u else u.

(** A computation that never writes the file. *)
Definition keeps_disk {A} (m : M A) : Prop := forall w, disk (m w).2 = disk w.

(** [m] maintains the property [J] of the stored ledger, and what it
    returns satisfies [Q]. *)
Definition inv_safe {A} (J : gmap string UserRecord -> Prop) (m : M A) (Q : A -> Prop)
  : Prop :=
  forall w, J (ledger w) -> J (ledger (m w).2) /\ forall a, (m w).1 = Ret a -> Q a.

Definition safe {A} (J : gmap string UserRecord -> Prop) (m : M A) : Prop :=
  inv_safe J m (fun _ => True).

(** No record names its own key as referrer. *)
Definition no_self_ref (m : gmap string UserRecord) : Prop :=
  forall k u r, m !! k = Some u -> referredBy u = Some r -> k <> String_of_Z r.

(** Properties of a ledger that survive every write that leaves
    [referredBy] alone: the replacement of a record, the creation of a
    zero-value record, a pass over all records. *)
Class LedgerInv (J : gmap string UserRecord -> Prop) : Prop := {
  inv_put : forall (m : gmap string UserRecord) k u u',
    J m -> m !! k = Some u -> referredBy u' = referredBy u -> J (<[k := u']> m);
  inv_new : forall (m : gmap string UserRecord) k,
    J m -> m !! k = None -> J (<[k := zero_user]> m);
  inv_fmap : forall (m : gmap string UserRecord) (f : UserRecord -> UserRecord),
    (forall u, referredBy (f u) = referredBy u) -> J m -> J (f <$> m)
}.

(** The record a grant of [baseDays] at [now] makes of [old]. *)
Definition granted (now baseDays : Z) (old : UserRecord) : UserRecord :=
  {| expiresAt := Some (extend now ((baseDays + or0 (bonusDays old)) * DAY_MS)
                          (expiresAt old));
     referredBy := referredBy old;
     referralsCount := referralsCount old;
     firstPaymentDone := firstPaymentDone old;
     totalPaidCycles := Some (or0 (totalPaidCycles old) + 1);
     bonusDays := Some 0 |}.

(** Transport call [c] was issued (whatever its outcome) in [t]. *)
Definition attempted (c : TgCall) (t : list Event) : Prop :=
  exists ok, TgEv c ok ∈ t.

(** The edit of the review message, by its kind. *)
Definition status_edit (k : MsgKind) (extra : Status) : list TgCall :=
  match k with
  | MediaMsg => [editMessageCaption extra]
  | TextMsg => [editMessageText extra]
  | OtherMsg => []
  end.

(** The events of calls that all resolved. *)
Definition all_ok (cs : list TgCall) : list Event := (fun c => TgEv c true) <$> cs.

(** The operations that may write the file: the three whose handlers
    call [saveDb]. *)
Definition may_write (op : Op) : bool :=
  match op with
  | OpStart _ | OpCallback _ | OpSweep => true
  | _ => false
  end.

(** Where a proof of payment goes: the photo if there is one, else the
    document, else the text. *)
Definition forwarded (admin : JsNum) (ctx : ProofCtx) : list TgCall :=
  let review := MsgReview (display_name (proof_first_name ctx) (proof_last_name ctx))
                  (display_username (proof_username ctx)) (proof_from ctx) in
  match proof_photo ctx, proof_document ctx, proof_text ctx with
  | Some fileId, _, _ => [sendPhoto admin fileId (review None)]
  | None, Some fileId, _ => [sendDocument admin fileId (review None)]
  | None, None, Some (String c t) => [sendMessage admin (review (Some (String c t)))]
  | _, _, _ => []
  end.

(** A subscription that is running at [now]: [expiresAt] is present, is
    not [0], and is later than [now]. *)
Definition active (now : Z) (u : UserRecord) : Prop :=
  exists e, expiresAt u = Some e /\ e <> 0 /\ now < e.

#[global] Instance active_dec now u : Decision (active now u).
Proof.
  unfold active. destruct (expiresAt u) as [e|].
  - destruct (decide (e <> 0 /\ now < e)) as [H|H].
    + left. by exists e.
    + right. intros (e' & [= <-] & H'). by apply H.
  - right. by intros (e & He & _).
Defined.

(** ** Sample configurations and stores *)

Definition cfg_channel : Config :=
  {| CHANNEL_ID := Some "-1001234"; CHANNEL_INVITE_LINK := Some "https://t.me/+static";
     ADMIN_CHAT_ID := Num 99 |}.

Definition cfg_link_only : Config :=
  {| CHANNEL_ID := None; CHANNEL_INVITE_LINK := Some "https://t.me/+static";
     ADMIN_CHAT_ID := Num 99 |}.

(** Every transport call succeeds, every write succeeds, the clock stands
    at [now]. *)
Definition env_at (c : Config) (now : Z) : Env :=
  {| cfg := c; BOT_USERNAME := "VipBot"; clock := fun _ => now;
     transport := fun _ _ => Some "https://t.me/+single";
     fs_write_ok := fun _ => true |}.


Definition world_of (d : option Db) : World :=
  {| disk := d; ticks := 0; trace := [] |}.

Definition alice : UserRecord :=
  {| expiresAt := Some 5000000000; referredBy := None; referralsCount := Some 0;
     firstPaymentDone := true; totalPaidCycles := Some 1; bonusDays := Some 0 |}.

Definition bob : UserRecord :=
  {| expiresAt := None; referredBy := Some 1001; referralsCount := Some 0;
     firstPaymentDone := false; totalPaidCycles := Some 0; bonusDays := Some 0 |}.

Definition carol : UserRecord :=
  {| expiresAt := Some 1000; referredBy := None; referralsCount := Some 0;
     firstPaymentDone := true; totalPaidCycles := Some 1; bonusDays := Some 0 |}.

(** Alice (1001) has a running subscription, Bob (1002) came through
    Alice's code and has not paid yet, Carol's (1003) subscription lapsed
    at instant 1000. *)
Definition db_sample : Db :=
  {| users := <["1001" := alice]> (<["1002" := bob]> (<["1003" := carol]> ∅)) |}.

Definition bob_id : JsNum := Num 1002.

(** An update whose handler [h] runs when [n] events have happened, as
    what goes on while a sweep waits (see [await]). *)
Definition arriving {A} (n : nat) (h : M A) : World -> World :=
  fun w => if (length (trace w) =? n)%nat then (h w).2 else w.

Definition dave (payload : string) : StartCtx :=
  {| start_from := 1004; start_username := Some "dave"; startPayload := Some payload |}.

(** * Proofs *)

(** ** Strings: rendering and reading of identities *)

Lemma string_forall_impl (P Q : ascii -> bool) (s : string) :
  (forall c, P c = true -> Q c = true) ->
  string_forall P s = true -> string_forall Q s = true.
Proof.
  intros HPQ. induction s as [|c s IH]; simpl; [done|].
  intros [Hc Hs]%andb_prop. rewrite (HPQ _ Hc), (IH Hs). done.
Qed.

Lemma string_forall_app (P : ascii -> bool) (s t : string) :
  string_forall P (s +:+ t) = string_forall P s && string_forall P t.
Proof.
  induction s as [|c s IH]; simpl; [done|]. by rewrite IH, andb_assoc.
Qed.

Lemma digit_cases (c : ascii) :
  is_digit c = true ->
  is_ws c = false /\ Ascii.eqb c ":" = false /\
  Ascii.eqb c "-" = false /\ Ascii.eqb c "+" = false.
Proof.
  destruct c as [[] [] [] [] [] [] [] []]; vm_compute; intros; try done.
Qed.

Lemma string_of_uint_digits (d : uint) :
  string_forall is_digit (NilEmpty.string_of_uint d) = true.
Proof. induction d; simpl; done. Qed.

Lemma split_no_sep (sep : ascii) (s : string) :
  string_forall (not_char sep) s = true -> split sep s = [s].
Proof.
  induction s as [|c s IH]; simpl; [done|].
  unfold not_char at 1. intros [Hc Hs]%andb_prop.
  apply negb_true_iff in Hc. rewrite Hc, (IH Hs). done.
Qed.

Lemma split_app (sep : ascii) (a b : string) :
  string_forall (not_char sep) a = true ->
  split sep (a +:+ String sep b) = a :: split sep b.
Proof.
  induction a as [|c a IH]; simpl.
  - intros _. by rewrite Ascii.eqb_refl.
  - unfold not_char at 1. intros [Hc Ha]%andb_prop.
    apply negb_true_iff in Hc. rewrite Hc, (IH Ha). done.
Qed.

Lemma trim_end_id (s : string) :
  string_forall (fun c => negb (is_ws c)) s = true -> trim_end s = s.
Proof.
  induction s as [|c s IH]; simpl; [done|].
  intros [Hc Hs]%andb_prop. apply negb_true_iff in Hc.
  rewrite (IH Hs), Hc. by destruct s.
Qed.

Lemma trim_id (s : string) :
  string_forall (fun c => negb (is_ws c)) s = true -> trim s = s.
Proof.
  intros H. unfold trim.
  assert (trim_start s = s) as ->; [|by apply trim_end_id].
  destruct s as [|c s]; simpl in *; [done|].
  apply andb_prop in H as [Hc _]. apply negb_true_iff in Hc. by rewrite Hc.
Qed.

Lemma digits_value_to_uint (p : positive) :
  digits_value (NilEmpty.string_of_uint (Pos.to_uint p)) = Num (Z.pos p).
Proof.
  unfold digits_value. rewrite NilEmpty.usu.
  pose proof (DecimalZ.of_to (Z.pos p)) as Hz. simpl in Hz. rewrite Hz.
  destruct (NilEmpty.string_of_uint (Pos.to_uint p)) eqn:E; [|done].
  pose proof (DecimalPos.Unsigned.to_uint_nonnil p) as Hn.
  destruct (Pos.to_uint p); simpl in E; done.
Qed.

Lemma String_of_Z_pos (p : positive) :
  String_of_Z (Z.pos p) = NilEmpty.string_of_uint (Pos.to_uint p).
Proof.
  unfold String_of_Z. simpl.
  pose proof (DecimalPos.Unsigned.to_uint_nonnil p) as Hn.
  by destruct (Pos.to_uint p).
Qed.

Lemma String_of_Z_neg (p : positive) :
  String_of_Z (Z.neg p) = String "-" (NilEmpty.string_of_uint (Pos.to_uint p)).
Proof.
  unfold String_of_Z. simpl.
  pose proof (DecimalPos.Unsigned.to_uint_nonnil p) as Hn.
  by destruct (Pos.to_uint p).
Qed.

(** The rendering of an identity has no white space and no colon. *)
Lemma String_of_Z_chars (z : Z) :
  string_forall (fun c => negb (is_ws c)) (String_of_Z z) = true /\
  string_forall (not_char ":") (String_of_Z z) = true.
Proof.
  assert (forall d, string_forall (fun c => negb (is_ws c)) (NilEmpty.string_of_uint d) = true
                    /\ string_forall (not_char ":") (NilEmpty.string_of_uint d) = true) as Hd.
  { intros d. split; apply (string_forall_impl is_digit); auto using string_of_uint_digits;
      intros c Hc; apply digit_cases in Hc as (Hw & Hcol & _).
    - by rewrite Hw.
    - unfold not_char. by rewrite Hcol. }
  destruct z as [|p|p].
  - done.
  - rewrite String_of_Z_pos. apply Hd.
  - rewrite String_of_Z_neg. simpl. destruct (Hd (Pos.to_uint p)) as [-> ->]. done.
Qed.

(** [Number(String(z)) = z] *)
Lemma Number_of_String (z : Z) : Number_of_string (String_of_Z z) = Num z.
Proof.
  unfold Number_of_string.
  rewrite trim_id by apply String_of_Z_chars.
  destruct z as [|p|p].
  - done.
  - rewrite String_of_Z_pos.
    pose proof (digits_value_to_uint p) as Hv.
    pose proof (string_of_uint_digits (Pos.to_uint p)) as Hdig.
    destruct (NilEmpty.string_of_uint (Pos.to_uint p)) as [|c r] eqn:E; [done|].
    simpl in Hdig. apply andb_prop in Hdig as [Hc _].
    apply digit_cases in Hc as (_ & _ & -> & ->). exact Hv.
  - rewrite String_of_Z_neg. rewrite Ascii.eqb_refl.
    by rewrite digits_value_to_uint.
Qed.

(** C10. Decoding a callback payload gives back what was encoded: for an
    action without a colon and any integer identity,
    [parseCallback (buildCallback action userId)] is exactly
    [{action, userId}]; so the two payloads the review keyboard carries,
    [approve:<id>] and [reject:<id>], are recovered by the coordinator. *)
Theorem parseCallback_buildCallback (act : string) (uid : Z) :
  string_forall (not_char ":") act = true ->
  parseCallback (buildCallback act uid) = {| action := act; userId := Num uid |}
  /\ parseCallback (buildCallback "approve" uid) = {| action := "approve"; userId := Num uid |}
  /\ parseCallback (buildCallback "reject" uid) = {| action := "reject"; userId := Num uid |}.
Proof.
  assert (forall a, string_forall (not_char ":") a = true ->
            parseCallback (buildCallback a uid) = {| action := a; userId := Num uid |}) as H.
  { intros a Ha. unfold parseCallback, buildCallback.
    change (":" +:+ String_of_Z uid) with (String ":" (String_of_Z uid)).
    rewrite (split_app _ _ _ Ha).
    rewrite split_no_sep by apply String_of_Z_chars.
    simpl. by rewrite Number_of_String. }
  intros Hact. split; [by apply H|]. split; by apply H.
Qed.

Lemma parseCallback_buildCallback_witness :
  string_forall (not_char ":") "approve" = true /\
  parseCallback (buildCallback "approve" 5512345678)
  = {| action := "approve"; userId := Num 5512345678 |}.
Proof.
  split; [reflexivity|].
  apply (parseCallback_buildCallback "approve" 5512345678). reflexivity.
Defined.

(** ** Running the primitives *)

Lemma ledger_saved env db w :
  fs_write_ok env (length (trace w)) = true ->
  saveDb env db w
  = (Ret tt, {| disk := Some db; ticks := ticks w;
                trace := trace w ++ [WriteEv db true] |}).
Proof. intros H. unfold saveDb. by rewrite H. Qed.

Lemma tg_logged_run env c w :
  exists ok, tg_logged env c w = (Ret tt, log_event (TgEv c ok) w).
Proof.
  unfold tg_logged, try_catch, ignore, mbind, M_bind, tg, mret, M_ret.
  destruct (transport env (length (trace w)) c); eauto.
Qed.

Lemma ledger_log_event e w : ledger (log_event e w) = ledger w.
Proof. done. Qed.

Lemma extend_stacked now ms old : 0 <= now -> extend now ms old = stacked now ms old.
Proof.
  intros Hnow. unfold extend, stacked, truthy, or0. destruct old as [t|]; [|done].
  destruct (Z.eqb_spec t 0) as [->|Hne]; simpl; [|done].
  destruct (Z.ltb_spec now 0); [lia|done].
Qed.

(** ** The grant engine *)




(** ** The referral engine *)

Lemma handleReferral_done env userId w rec :
  ledger w !! String_of_num userId = Some rec ->
  firstPaymentDone rec = true ->
  handleReferralOnFirstPayment env userId w = (Ret tt, w).
Proof.
  intros Hrec Hdone.
  unfold handleReferralOnFirstPayment, mbind, M_bind, loadDb, ensureUser, get_user.
  change (users (default empty_db (disk w))) with (ledger w).
  rewrite Hrec. simpl. by rewrite Hdone.
Qed.

Lemma referrer_of_Some db user r refUser :
  referrer_of db user = Some (r, refUser) <->
  referredBy user = Some r /\ r <> 0 /\ users db !! String_of_Z r = Some refUser.
Proof.
  unfold referrer_of, get_user. split.
  - destruct (referredBy user) as [r'|]; [|done].
    destruct (Z.eqb_spec r' 0); simpl; [done|].
    destruct (users db !! String_of_Z r') eqn:E; [|done].
    intros [= <- <-]. done.
  - intros (-> & Hr & ->). apply Z.eqb_neq in Hr. by rewrite Hr.
Qed.

Lemma handleReferral_marks env userId w :
  fs_write_ok env (length (trace w)) = true ->
  exists w1,
    handleReferralOnFirstPayment env userId w = (Ret tt, w1) /\
    firstPaymentDone <$> ledger w1 !! String_of_num userId = Some true.
Proof.
  intros Hw.
  destruct (ledger w !! String_of_num userId) as [u|] eqn:Hu;
    [destruct (firstPaymentDone u) eqn:Hf|].
  { exists w. rewrite (handleReferral_done _ _ _ u), Hu by done. simpl. by rewrite Hf. }
  all: unfold handleReferralOnFirstPayment, mbind, M_bind, loadDb, ensureUser, get_user;
    change (users (default empty_db (disk w))) with (ledger w);
    rewrite Hu; simpl; rewrite ?Hf;
    try match goal with |- context [referrer_of ?d ?u] =>
      destruct (referrer_of d u) as [[r refUser]|] eqn:Hr end.
  all: unfold getNow; simpl; rewrite ledger_saved by done.
  all: try (match goal with |- context [tg_logged ?e ?c ?w0] =>
         destruct (tg_logged_run e c w0) as [ok ->] end).
  all: eexists; (split; [reflexivity|]); rewrite ?ledger_log_event;
    unfold ledger; simpl; rewrite ?lookup_insert_eq; try reflexivity.
  apply referrer_of_Some in Hr as (_ & _ & Hr); simpl in Hr.
  rewrite lookup_insert in Hr |- *.
  destruct (decide (String_of_num userId = String_of_Z r)) as [Heq|Hne].
  - injection Hr as <-. by rewrite decide_True.
  - rewrite decide_False by done. by rewrite lookup_insert_eq.
Qed.

Lemma handleReferral_credit env userId w user r refUser :
  ledger w !! String_of_num userId = Some user ->
  firstPaymentDone user = false ->
  referredBy user = Some r -> r <> 0 ->
  ledger w !! String_of_Z r = Some refUser ->
  fs_write_ok env (length (trace w)) = true ->
  exists w1 refUser',
    handleReferralOnFirstPayment env userId w = (Ret tt, w1) /\
    ledger w1 !! String_of_Z r = Some refUser' /\
    referralsCount refUser' = Some (or0 (referralsCount refUser) + 1) /\
    expiresAt refUser' =
      Some (extend (clock env (ticks w)) (REFERRAL_BONUS_DAYS * DAY_MS) (expiresAt refUser)) /\
    bonusDays refUser' = bonusDays refUser /\
    referredBy refUser' = referredBy refUser /\
    totalPaidCycles refUser' = totalPaidCycles refUser.
Proof.
  intros Hu Hf Hby Hr0 Href Hw.
  unfold handleReferralOnFirstPayment, mbind, M_bind, loadDb, ensureUser, get_user.
  change (users (default empty_db (disk w))) with (ledger w).
  rewrite Hu; simpl; rewrite Hf.
  set (user' := set_firstPaymentDone true user).
  set (db1 := put_user _ _ user').
  assert (exists ru, referrer_of db1 user' = Some (r, ru) /\
            referralsCount ru = referralsCount refUser /\
            expiresAt ru = expiresAt refUser /\ bonusDays ru = bonusDays refUser /\
            referredBy ru = referredBy refUser /\
            totalPaidCycles ru = totalPaidCycles refUser) as (ru & -> & Hc & He & Hb & Hrb & Ht).
  { destruct (decide (String_of_num userId = String_of_Z r)) as [Heq|Hne].
    - exists user'. split.
      + apply referrer_of_Some. repeat split; try done.
        subst db1; simpl. rewrite Heq. apply lookup_insert_eq.
      + rewrite Heq, Href in Hu. injection Hu as ->. done.
    - exists refUser. split; [|done].
      apply referrer_of_Some. repeat split; try done.
      subst db1; simpl. rewrite lookup_insert_ne by done. exact Href. }
  unfold getNow; simpl. rewrite ledger_saved by done.
  match goal with |- context [tg_logged ?e ?c ?w0] =>
    destruct (tg_logged_run e c w0) as [ok ->] end.
  eexists _, _. split; [reflexivity|]. rewrite ledger_log_event.
  unfold ledger; simpl. rewrite lookup_insert_eq. split; [reflexivity|]. simpl.
  rewrite Hc, He, Hb, Hrb, Ht. done.
Qed.



(** C2. The first-payment handler run twice in a row for the same user:
    the second run finds [firstPaymentDone] set and changes nothing (same
    world, no event). So after both runs a referrer with a record has been
    credited once: [referralsCount] is the old count plus 1, and
    [expiresAt] is the old value plus 5 days when that value was present
    and later than [now], [now] plus 5 days otherwise (not 10 days), [now]
    being the reading of [Date.now()] in the first run. *)
Theorem referral_credited_once (env1 env2 : Env) (w : World) (userId : JsNum) :
  let now := clock env1 (ticks w) in
  fs_write_ok env1 (length (trace w)) = true ->
  exists w1,
    handleReferralOnFirstPayment env1 userId w = (Ret tt, w1) /\
    handleReferralOnFirstPayment env2 userId w1 = (Ret tt, w1) /\
    firstPaymentDone <$> ledger w1 !! String_of_num userId = Some true /\
    forall user r refUser,
      ledger w !! String_of_num userId = Some user ->
      firstPaymentDone user = false ->
      referredBy user = Some r -> r <> 0 ->
      ledger w !! String_of_Z r = Some refUser ->
      0 <= now ->
      exists refUser',
        ledger w1 !! String_of_Z r = Some refUser' /\
        referralsCount refUser' = Some (or0 (referralsCount refUser) + 1) /\
        expiresAt refUser' = Some (stacked now (5 * DAY_MS) (expiresAt refUser)).
Proof.
  intros now Hw.
  destruct (handleReferral_marks env1 userId w Hw) as (w1 & Hrun & Hdone).
  exists w1. split; [done|]. split; [|split; [done|]].
  - destruct (ledger w1 !! String_of_num userId) as [rec|] eqn:Hrec; [|done].
    apply (handleReferral_done env2 userId w1 rec Hrec). by simplify_eq/=.
  - intros user r refUser Hu Hf Hby Hr0 Href Hnow.
    destruct (handleReferral_credit env1 userId w user r refUser Hu Hf Hby Hr0 Href Hw)
      as (w' & refUser' & Hrun' & Hl & Hc & He & _).
    rewrite Hrun in Hrun'. injection Hrun' as <-.
    exists refUser'. split; [done|]. split; [done|].
    rewrite He. f_equal. by apply extend_stacked.
Qed.

Lemma referral_credited_once_witness :
  exists w1,
    handleReferralOnFirstPayment (env_at cfg_channel 2000000000) bob_id
      (world_of (Some db_sample)) = (Ret tt, w1) /\
    handleReferralOnFirstPayment (env_at cfg_channel 2000000500) bob_id w1 = (Ret tt, w1) /\
    referralsCount <$> ledger w1 !! "1001" = Some (Some 1) /\
    expiresAt <$> ledger w1 !! "1001" = Some (Some (5000000000 + 5 * 86400000)).
Proof.
  destruct (referral_credited_once (env_at cfg_channel 2000000000)
              (env_at cfg_channel 2000000500) (world_of (Some db_sample)) bob_id)
    as (w1 & H1 & H2 & _ & H4); [reflexivity|].
  exists w1. split; [exact H1|]. split; [exact H2|].
  destruct (H4 bob 1001 alice) as (refUser' & Hl & Hc & He);
    [vm_compute; reflexivity | reflexivity | reflexivity | lia | vm_compute; reflexivity
    | vm_compute; congruence |].
  change (String_of_Z 1001) with "1001" in Hl. rewrite Hl. simpl.
  rewrite Hc, He. split; reflexivity.
Defined.

(** ** Computations that leave the file alone *)

Lemma keeps_disk_ret {A} (a : A) : keeps_disk (mret a).
Proof. done. Qed.

Lemma keeps_disk_bind {A B} (m : M A) (f : A -> M B) :
  keeps_disk m -> (forall a, keeps_disk (f a)) -> keeps_disk (m ≫= f).
Proof.
  intros Hm Hf w. unfold mbind, M_bind. specialize (Hm w).
  destruct (m w) as [[a|e] w1]; simpl in *; [|done].
  by rewrite Hf.
Qed.

Lemma keeps_disk_try {A} (m : M A) (h : Error -> M A) :
  keeps_disk m -> (forall e, keeps_disk (h e)) -> keeps_disk (try_catch m h).
Proof.
  intros Hm Hh w. unfold try_catch. specialize (Hm w).
  destruct (m w) as [[a|e] w1]; simpl in *; [done|].
  by rewrite Hh.
Qed.

Lemma keeps_disk_loadDb : keeps_disk loadDb.
Proof. done. Qed.

Lemma keeps_disk_getNow env : keeps_disk (getNow env).
Proof. done. Qed.

Lemma keeps_disk_tg env c : keeps_disk (tg env c).
Proof. intros w. unfold tg. by destruct (transport _ _ _). Qed.

Lemma keeps_disk_ignore {A} (m : M A) : keeps_disk m -> keeps_disk (ignore m).
Proof. intros Hm. apply keeps_disk_bind; [done|]. intros _. apply keeps_disk_ret. Qed.

Lemma keeps_disk_tg_logged env c : keeps_disk (tg_logged env c).
Proof.
  apply keeps_disk_try; [apply keeps_disk_ignore, keeps_disk_tg|].
  intros _. apply keeps_disk_ret.
Qed.

Create HintDb keeps discriminated.

#[local] Hint Resolve keeps_disk_ret keeps_disk_loadDb keeps_disk_getNow keeps_disk_tg
  keeps_disk_ignore keeps_disk_tg_logged : keeps.

Ltac keeps_disk_step :=
  first
    [ apply keeps_disk_bind; [|intros ?]
    | apply keeps_disk_try; [|intros ?]
    | solve [auto with keeps]
    | match goal with
      | |- keeps_disk (if ?b then _ else _) => destruct b
      | |- keeps_disk (match ?x with _ => _ end) => destruct x
      | |- keeps_disk (let '(_, _) := ?x in _) => destruct x
      end ].

Ltac keeps_disk_auto := repeat keeps_disk_step.

Lemma keeps_disk_whoami env from : keeps_disk (whoami env from).
Proof. unfold whoami. keeps_disk_auto. Qed.

Lemma keeps_disk_status env from : keeps_disk (status env from).
Proof. unfold status. keeps_disk_auto. Qed.

Lemma keeps_disk_referidos env from : keeps_disk (referidos env from).
Proof. unfold referidos. keeps_disk_auto. Qed.

Lemma keeps_disk_admin env from : keeps_disk (admin env from).
Proof. unfold admin. keeps_disk_auto. Qed.

Lemma keeps_disk_pagar env : keeps_disk (pagar env).
Proof. unfold pagar. keeps_disk_auto. Qed.

Lemma keeps_disk_on_proof env ctx : keeps_disk (on_proof env ctx).
Proof. unfold on_proof. keeps_disk_auto. Qed.

Lemma keeps_disk_createUniqueInviteLink env userId e :
  keeps_disk (createUniqueInviteLink env userId e).
Proof. unfold createUniqueInviteLink. keeps_disk_auto. Qed.

Lemma keeps_disk_appendStatus env k extra : keeps_disk (appendStatus env k extra).
Proof. unfold appendStatus. keeps_disk_auto. Qed.

#[local] Hint Resolve keeps_disk_appendStatus keeps_disk_createUniqueInviteLink : keeps.

(** ** The approval coordinator *)

(** C4. A click by anybody but the configured administrator, at any point
    of the bot's life: the handler ends normally, the file and the clock
    are untouched, and the only calls made are acknowledgements of the
    click: the permission-denied alert, followed by the generic error alert
    only when sending the first one failed. No write, no message to a
    user. *)
Theorem non_admin_decision (env : Env) (w : World) (ctx : CbCtx) :
  strict_eq (Num (cb_from ctx)) (ADMIN_CHAT_ID (cfg env)) = false ->
  let n := length (trace w) in
  let denied := answerCbQuery CbDenied true in
  let new :=
    match transport env n denied with
    | Some _ => [TgEv denied true]
    | None => [TgEv denied false;
               TgEv (answerCbQuery CbError true)
                    (resolved (transport env (S n) (answerCbQuery CbError true)))]
    end in
  exists w',
    callback_query env ctx w = (Ret tt, w') /\
    disk w' = disk w /\
    ticks w' = ticks w /\
    trace w' = (trace w ++ new)%list /\
    Forall is_ack new.
Proof.
  intros Hnot n denied new.
  unfold callback_query. rewrite Hnot. simpl.
  unfold try_catch, ignore, tg_logged, try_catch, ignore, mbind, M_bind, tg. fold n denied.
  subst new. destruct (transport env n denied) as [r|] eqn:Hd; simpl.
  - eexists. repeat split; try done.
    repeat constructor. by exists CbDenied, true, true.
  - rewrite length_app, Nat.add_1_r. fold n.
    destruct (transport env (S n) (answerCbQuery CbError true)) eqn:He; simpl;
      (eexists; repeat split; [simpl; by rewrite <- app_assoc|]);
      repeat constructor; by eexists _, _, _.
Qed.

Lemma non_admin_decision_witness :
  exists w',
    callback_query (env_at cfg_channel 2000000000)
      {| cb_data := buildCallback "approve" 1002; cb_from := 1002; cb_msg := TextMsg |}
      (world_of (Some db_sample)) = (Ret tt, w') /\
    disk w' = Some db_sample /\
    trace w' = [TgEv (answerCbQuery CbDenied true) true].
Proof.
  destruct (non_admin_decision (env_at cfg_channel 2000000000) (world_of (Some db_sample))
              {| cb_data := buildCallback "approve" 1002; cb_from := 1002;
                 cb_msg := TextMsg |})
    as (w' & H1 & H2 & _ & H4 & _); [reflexivity|].
  exists w'. split; [exact H1|]. split; [exact H2|exact H4].
Defined.

Lemma min_seconds (now expiresAt : Z) :
  Z.min (expiresAt / 1000) (now / 1000 + 24 * 60 * 60)
  = Z.min (now + 24 * 60 * 60 * 1000) expiresAt / 1000.
Proof.
  replace (now / 1000 + 24 * 60 * 60) with ((now + 24 * 60 * 60 * 1000) / 1000)
    by (rewrite <- Z.div_add by lia; f_equal).
  destruct (Z.le_gt_cases expiresAt (now + 24 * 60 * 60 * 1000)) as [H|H].
  - rewrite (Z.min_r _ expiresAt) by lia.
    apply Z.min_l, Z.div_le_mono; lia.
  - rewrite (Z.min_l _ expiresAt) by lia.
    apply Z.min_r, Z.div_le_mono; lia.
Qed.

(** C9. With a channel configured, the invite is requested for one use and
    with, as expiration, the earlier of [now] + 24 h and [expiresAt], in
    the whole seconds the transport counts in; the link the transport
    answers with is returned, and the static fallback when the request
    fails. For [expiresAt = now + 48 h] the earlier instant is
    [now + 24 h]. *)
Theorem invite_expiration (env : Env) (w : World) (userId : JsNum) (expiresAt : Z)
    (chan : string) :
  CHANNEL_ID (cfg env) = Some chan -> chan <> EmptyString ->
  let now := clock env (ticks w) in
  let earlier := Z.min (now + 24 * 60 * 60 * 1000) expiresAt in
  let call := createChatInviteLink chan (earlier / 1000) 1 in
  let answer := transport env (length (trace w)) call in
  (exists w',
     createUniqueInviteLink env userId expiresAt w
     = (Ret (match answer with
             | Some link => Some link
             | None => CHANNEL_INVITE_LINK (cfg env)
             end), w') /\
     trace w' = (trace w ++ [TgEv call (resolved answer)])%list /\
     disk w' = disk w) /\
  (expiresAt = now + 48 * 60 * 60 * 1000 -> earlier = now + 24 * 60 * 60 * 1000).
Proof.
  intros Hch Hne now earlier call answer. split; [|intros ->; subst earlier; lia].
  unfold createUniqueInviteLink. rewrite Hch.
  destruct chan as [|c ch]; [done|].
  unfold try_catch, mbind, M_bind, getNow, tg; simpl.
  rewrite min_seconds. fold now earlier call answer.
  destruct answer; eexists; done.
Qed.

Lemma invite_expiration_witness :
  exists w',
    createUniqueInviteLink (env_at cfg_channel 2000000500) bob_id
      (2000000500 + 48 * 60 * 60 * 1000) (world_of (Some db_sample))
    = (Ret (Some "https://t.me/+single"), w') /\
    trace w' = [TgEv (createChatInviteLink "-1001234" (2000000 + 24 * 60 * 60) 1) true].
Proof.
  destruct (invite_expiration (env_at cfg_channel 2000000500) (world_of (Some db_sample))
              bob_id (2000000500 + 48 * 60 * 60 * 1000) "-1001234")
    as [(w' & H1 & H2 & _) _]; [reflexivity | done |].
  exists w'. split; [exact H1|exact H2].
Defined.

(** ** The expiration sweeper *)

Lemma ban_unban_run env ch uid w :
  exists w',
    try_catch (_ ← tg env (banChatMember ch uid);
               _ ← tg env (unbanChatMember ch uid);
               mret tt)
              (fun _ => mret tt) w = (Ret tt, w') /\
    disk w' = disk w /\ ticks w' = ticks w.
Proof.
  unfold try_catch, mbind, M_bind, tg.
  destruct (transport env (length (trace w)) _); simpl; [|by eexists].
  destruct (transport env _ (unbanChatMember ch uid)); simpl; by eexists.
Qed.

Lemma sweep_loop_run env ch now entries :
  forall db changed w,
  NoDup entries.*1 ->
  (forall k u, (k, u) ∈ entries -> users db !! k = Some u) ->
  exists db' changed' w',
    sweep_loop env ch now entries db changed w = (Ret (db', changed'), w') /\
    disk w' = disk w /\ ticks w' = ticks w /\
    (changed' = false -> db' = db) /\
    (changed = true -> changed' = true) /\
    (forall k, users db' !! k =
               if decide (k ∈ entries.*1) then sweep_record now <$> users db !! k
               else users db !! k).
Proof.
  induction entries as [|[k d] rest IH]; intros db changed w Hnd Hin.
  - exists db, changed, w. repeat split; try done.
  - apply NoDup_cons in Hnd as [Hk Hnd].
    assert (users db !! k = Some d) as Hkd by (apply Hin; left).
    assert (exists db1 w1 changed1,
              sweep_loop env ch now ((k, d) :: rest) db changed w
              = sweep_loop env ch now rest db1 changed1 w1 /\
              disk w1 = disk w /\ ticks w1 = ticks w /\
              (changed1 = false -> db1 = db) /\ (changed = true -> changed1 = true) /\
              users db1 = <[k := sweep_record now d]> (users db))
      as (db1 & w1 & changed1 & -> & Hd1 & Ht1 & Hsame1 & Hmono1 & Hdb1).
    { unfold sweep_record, stale. simpl.
      destruct (truthy (expiresAt d)) eqn:Ht; simpl;
        [destruct (or0 (expiresAt d) <=? now) eqn:Hle|].
      - unfold mbind at 1, M_bind at 1.
        destruct (ban_unban_run env ch (Number_of_string k) w) as (w1 & -> & Hd1 & Ht1).
        unfold mbind at 1, M_bind at 1.
        destruct (tg_logged_run env (sendMessage (Number_of_string k) MsgExpired) w1)
          as [ok ->].
        eexists _, _, _. split; [reflexivity|]. repeat split; try done.
        simpl. apply map_eq. intros j. rewrite lookup_alter, lookup_insert.
        destruct (decide (k = j)) as [<-|]; [by rewrite Hkd|done].
      - exists db, w, changed. repeat split; try done. by rewrite insert_id.
      - exists db, w, changed. repeat split; try done. by rewrite insert_id. }
    destruct (IH db1 changed1 w1 Hnd)
      as (db' & changed' & w' & -> & Hd & Htk & Hsame & Hmono & Hres).
    { intros k' u Hu. rewrite Hdb1, lookup_insert_ne; [by apply Hin; right|].
      intros ->. apply Hk. apply list_elem_of_fmap. by exists (k', u). }
    exists db', changed', w'. repeat split.
    + by rewrite Hd.
    + by rewrite Htk.
    + intros Hc. rewrite (Hsame Hc). apply Hsame1.
      destruct changed1; [|done]. by rewrite Hmono in Hc.
    + intros Hc. by apply Hmono, Hmono1.
    + intros j. rewrite Hres, Hdb1. simpl.
      destruct (decide (j = k)) as [->|Hne].
      * rewrite decide_False by done. rewrite decide_True by left.
        by rewrite lookup_insert_eq, Hkd.
      * rewrite lookup_insert_ne by done.
        destruct (decide (j ∈ rest.*1)) as [Hj|Hj].
        -- by rewrite decide_True by (by right).
        -- rewrite decide_False; [done|]. by intros [?|?]%elem_of_cons.
Qed.

Lemma sweep_record_fresh now (u : UserRecord) t :
  expiresAt (sweep_record now u) = Some t -> t <> 0 -> now < t.
Proof.
  unfold sweep_record, stale, truthy, or0.
  destruct (expiresAt u) as [e|] eqn:He; simpl; [|by rewrite He].
  destruct (Z.eqb_spec e 0) as [->|Hne]; simpl.
  - rewrite He. by intros [= <-].
  - destruct (Z.leb_spec e now); simpl; [done|]. rewrite He. intros [= <-] _. lia.
Qed.

(** The loop over all entries of the loaded ledger. *)
Lemma sweep_loop_all env ch now db w :
  exists db' changed' w',
    sweep_loop env ch now (map_to_list (users db)) db false w
    = (Ret (db', changed'), w') /\
    disk w' = disk w /\ ticks w' = ticks w /\
    (changed' = false -> db' = db) /\
    users db' = sweep_record now <$> users db.
Proof.
  destruct (sweep_loop_run env ch now (map_to_list (users db)) db false w)
    as (db' & changed' & w' & Hrun & Hd & Htk & Hsame & _ & Hres).
  { apply NoDup_fst_map_to_list. }
  { intros k u. apply elem_of_map_to_list. }
  exists db', changed', w'. repeat split; try done.
  apply map_eq. intros k. rewrite Hres, lookup_fmap. case_decide as Hk; [done|].
  destruct (users db !! k) as [u|] eqn:Hu; [|done].
  exfalso. apply Hk. apply list_elem_of_fmap. exists (k, u).
  split; [done|]. by apply elem_of_map_to_list.
Qed.

(** The two ways a sweep with a channel can end: normally, with the swept
    ledger stored, or in the exception of a refused write, with the file
    as it was. *)
Lemma checkExpirations_run env w c ch :
  CHANNEL_ID (cfg env) = Some (String c ch) ->
  (exists w',
     checkExpirations env w = (Ret tt, w') /\
     ledger w' = sweep_record (clock env (ticks w)) <$> ledger w) \/
  (exists w',
     checkExpirations env w = (Throw FsError, w') /\ disk w' = disk w /\
     fs_write_ok env (pred (length (trace w'))) = false).
Proof.
  intros Hch.
  destruct (checkExpirations env w) as [r w1] eqn:Hrun.
  unfold checkExpirations in Hrun. rewrite Hch in Hrun.
  unfold mbind at 1, M_bind at 1, loadDb in Hrun.
  unfold mbind at 1, M_bind at 1, getNow in Hrun.
  set (now := clock env (ticks w)) in *.
  set (db := default empty_db (disk w)) in *.
  set (w0 := {| disk := disk w; ticks := S (ticks w); trace := trace w |}) in *.
  unfold mbind, M_bind in Hrun.
  destruct (sweep_loop_all env (String c ch) now db w0)
    as (db' & changed' & w' & Hloop & Hd & Htk & Hsame & Hdb').
  rewrite Hloop in Hrun. destruct changed'.
  - unfold saveDb in Hrun. destruct (fs_write_ok env (length (trace w'))) eqn:Hw;
      injection Hrun as <- <-.
    + left. eexists. split; [reflexivity|]. done.
    + right. eexists. split; [reflexivity|]. split; [done|].
      simpl. rewrite length_app, Nat.add_1_r. done.
  - injection Hrun as <- <-. left. eexists. split; [reflexivity|].
    unfold ledger. rewrite Hd. subst w0; simpl. fold db.
    rewrite <- Hdb'. by rewrite (Hsame eq_refl).
Qed.

(** C3 (as amended). With [CHANNEL_ID] configured, a sweep that completes
    leaves as stored ledger the old one with [expiresAt] set to none in
    every record whose [expiresAt] was truthy and [<= now], and nothing
    else changed; so afterwards a present, non-zero [expiresAt] is later
    than the sweep's [now]. The sweep does complete when the file can be
    written. *)
Theorem sweep_clears_expired (env : Env) (w : World) :
  truthy_str (CHANNEL_ID (cfg env)) = true ->
  let now := clock env (ticks w) in
  ((forall n, fs_write_ok env n = true) ->
   exists w', checkExpirations env w = (Ret tt, w')) /\
  (forall w',
     checkExpirations env w = (Ret tt, w') ->
     ledger w' = sweep_record now <$> ledger w /\
     forall k u t,
       ledger w' !! k = Some u -> expiresAt u = Some t -> t <> 0 -> now < t).
Proof.
  intros Hch now.
  destruct (CHANNEL_ID (cfg env)) as [[|c ch]|] eqn:E; try done.
  destruct (checkExpirations_run env w c ch E) as [(w1 & Hrun & Hl)|(w1 & Hrun & _ & Hno)].
  - split; [by exists w1|]. intros w' Hrun'. rewrite Hrun in Hrun'.
    injection Hrun' as <-. split; [done|].
    intros k u t Hu. rewrite Hl, lookup_fmap in Hu.
    destruct (ledger w !! k) as [u0|]; simplify_eq/=. apply sweep_record_fresh.
  - split; [|by rewrite Hrun].
    intros Hfs. by rewrite Hfs in Hno.
Qed.

Lemma sweep_clears_expired_witness :
  exists w',
    checkExpirations (env_at cfg_channel 2000000000) (world_of (Some db_sample))
    = (Ret tt, w') /\
    expiresAt <$> ledger w' !! "1003" = Some None.
Proof.
  destruct (sweep_clears_expired (env_at cfg_channel 2000000000)
              (world_of (Some db_sample))) as [Hruns Hafter]; [reflexivity|].
  destruct Hruns as [w' Hrun]; [reflexivity|].
  exists w'. split; [exact Hrun|].
  destruct (Hafter w' Hrun) as [-> _]. vm_compute. reflexivity.
Defined.

(** C3, as stated, fails: without [CHANNEL_ID] the sweep returns at once
    and the subscription of user 1003, lapsed at 1000, is still in the
    ledger at 2000000000. *)
Lemma sweep_without_channel_counterexample :
  exists u t,
    ledger (checkExpirations (env_at cfg_link_only 2000000000)
              (world_of (Some db_sample))).2 !! "1003" = Some u /\
    expiresAt u = Some t /\
    t <= clock (env_at cfg_link_only 2000000000) (ticks (world_of (Some db_sample))).
Proof.
  exists carol, 1000. split; [vm_compute; reflexivity|]. split; [reflexivity|].
  vm_compute. congruence.
Qed.

(** ** Invariants of the stored ledger *)

(** The rendering of identities is injective: distinct users have distinct
    keys. *)
Lemma String_of_Z_inj (a b : Z) : String_of_Z a = String_of_Z b -> a = b.
Proof.
  intros H. apply (f_equal Number_of_string) in H.
  rewrite !Number_of_String in H. by injection H.
Qed.

Lemma ensureUser_spec db userId db1 user :
  ensureUser db userId = (db1, user) ->
  users db1 !! String_of_num userId = Some user /\
  (users db1 = users db \/
   (users db !! String_of_num userId = None /\ user = zero_user /\
    users db1 = <[String_of_num userId := zero_user]> (users db))).
Proof.
  unfold ensureUser, get_user.
  destruct (users db !! String_of_num userId) as [u|] eqn:Hu; intros [= <- <-].
  - eauto.
  - simpl. rewrite lookup_insert_eq. split; [done|]. right. done.
Qed.

Lemma inv_safe_ret {A} J (a : A) (Q : A -> Prop) : Q a -> inv_safe J (mret a) Q.
Proof. intros Ha w Hw. split; [done|]. by intros a' [= <-]. Qed.

Lemma inv_safe_bind {A B} J (m : M A) (f : A -> M B) (Q : A -> Prop) (R : B -> Prop) :
  inv_safe J m Q -> (forall a, Q a -> inv_safe J (f a) R) -> inv_safe J (m ≫= f) R.
Proof.
  intros Hm Hf w Hw. unfold mbind, M_bind.
  destruct (Hm w Hw) as [Hw1 Hq].
  destruct (m w) as [[a|e] w1]; simpl in *; [|done].
  by apply Hf; [apply Hq|].
Qed.

Lemma inv_safe_try {A} J (m : M A) (h : Error -> M A) (Q : A -> Prop) :
  inv_safe J m Q -> (forall e, inv_safe J (h e) Q) -> inv_safe J (try_catch m h) Q.
Proof.
  intros Hm Hh w Hw. unfold try_catch.
  destruct (Hm w Hw) as [Hw1 Hq].
  destruct (m w) as [[a|e] w1]; simpl in *; [done|].
  by apply Hh.
Qed.

Lemma safe_keeps_disk {A} J (m : M A) : keeps_disk m -> safe J m.
Proof. intros Hm w Hw. split; [|done]. unfold ledger. by rewrite Hm. Qed.

Lemma inv_safe_loadDb J : inv_safe J loadDb (fun db => J (users db)).
Proof. intros w Hw. split; [done|]. by intros db [= <-]. Qed.

Lemma safe_saveDb J env db : J (users db) -> safe J (saveDb env db).
Proof.
  intros Hdb w Hw. split; [|done]. unfold saveDb.
  by destruct (fs_write_ok env _).
Qed.

Lemma safe_bind {A B} J (m : M A) (f : A -> M B) :
  safe J m -> (forall a, safe J (f a)) -> safe J (m ≫= f).
Proof.
  intros Hm Hf. apply (inv_safe_bind J m f (fun _ => True)); [done|].
  intros a _. apply Hf.
Qed.

(** That no record is its own referrer is of this kind. *)
#[local] Instance no_self_ref_inv : LedgerInv no_self_ref.
Proof.
  split.
  - intros m k u u' HJ Hu Href j u0 r Hu0 Hr.
    destruct (decide (k = j)) as [->|Hne].
    + rewrite lookup_insert_eq in Hu0. injection Hu0 as <-.
      apply (HJ j u r Hu). congruence.
    + rewrite lookup_insert_ne in Hu0 by done. by apply (HJ j u0 r).
  - intros m k HJ Hnone j u0 r Hu0 Hr.
    destruct (decide (k = j)) as [->|Hne].
    + rewrite lookup_insert_eq in Hu0. by injection Hu0 as <-.
    + rewrite lookup_insert_ne in Hu0 by done. by apply (HJ j u0 r).
  - intros m f Hf HJ j u0 r Hu0 Hr. rewrite lookup_fmap in Hu0.
    destruct (m !! j) as [u1|] eqn:Hu1; simplify_eq/=.
    apply (HJ j u1 r Hu1). by rewrite <- Hf.
Qed.

Section LedgerInvariant.
Context (J : gmap string UserRecord -> Prop) `{!LedgerInv J} (env : Env).

Lemma inv_ensureUser db userId db1 user :
  ensureUser db userId = (db1, user) -> J (users db) -> J (users db1).
Proof.
  intros (_ & [->|(Hnone & _ & ->)])%ensureUser_spec HJ; [done|].
  by apply inv_new.
Qed.

Lemma inv_ensure_put db userId db1 user user' :
  ensureUser db userId = (db1, user) -> J (users db) ->
  referredBy user' = referredBy user ->
  J (users (put_user db1 (String_of_num userId) user')).
Proof.
  intros E HJ Href. apply (inv_put _ _ user); [by apply (inv_ensureUser _ _ _ _ E)| |done].
  by apply ensureUser_spec in E as [? _].
Qed.

Lemma safe_grantSubscription userId baseDays :
  safe J (grantSubscription env userId baseDays).
Proof.
  unfold grantSubscription.
  apply (inv_safe_bind _ _ _ _ _ (inv_safe_loadDb J)). intros db Hdb.
  apply safe_bind; [apply safe_keeps_disk, keeps_disk_getNow|]. intros now.
  destruct (ensureUser db userId) as [db1 user] eqn:E.
  apply safe_bind; [|intros; by apply inv_safe_ret].
  apply safe_saveDb. by apply (inv_ensure_put _ _ _ _ _ E).
Qed.

Lemma safe_handleReferral userId :
  safe J (handleReferralOnFirstPayment env userId).
Proof.
  unfold handleReferralOnFirstPayment.
  apply (inv_safe_bind _ _ _ _ _ (inv_safe_loadDb J)). intros db Hdb.
  destruct (ensureUser db userId) as [db1 user] eqn:E.
  destruct (firstPaymentDone user); [by apply inv_safe_ret|].
  assert (J (users (put_user db1 (String_of_num userId)
                      (set_firstPaymentDone true user)))) as Hdb2
    by by apply (inv_ensure_put _ _ _ _ _ E).
  destruct (referrer_of _ _) as [[r refUser]|] eqn:Hr; [|by apply safe_saveDb].
  apply referrer_of_Some in Hr as (_ & _ & Hr).
  apply safe_bind; [apply safe_keeps_disk, keeps_disk_getNow|]. intros now.
  apply safe_bind; [|intros; apply safe_keeps_disk, keeps_disk_tg_logged].
  apply safe_saveDb. by apply (inv_put _ _ refUser).
Qed.

Lemma safe_checkExpirations : safe J (checkExpirations env).
Proof.
  unfold checkExpirations.
  destruct (CHANNEL_ID (cfg env)) as [[|c ch]|]; try by apply inv_safe_ret.
  apply (inv_safe_bind _ _ _ _ _ (inv_safe_loadDb J)). intros db Hdb.
  apply safe_bind; [apply safe_keeps_disk, keeps_disk_getNow|]. intros now.
  apply (inv_safe_bind _ _ _ (fun r => J (users r.1))).
  - intros w Hw.
    destruct (sweep_loop_all env (String c ch) now db w)
      as (db' & changed' & w' & -> & Hd & _ & _ & Hres).
    simpl. split; [unfold ledger; by rewrite Hd|].
    intros [db2 c2] [= <- <-]. simpl. rewrite Hres.
    apply inv_fmap; [|done]. intros u. unfold sweep_record. by destruct (stale now u).
  - intros [db' changed'] Hdb'. simpl in Hdb'.
    destruct changed'; [by apply safe_saveDb|by apply inv_safe_ret].
Qed.

Lemma safe_callback_query ctx : safe J (callback_query env ctx).
Proof.
  unfold callback_query.
  apply inv_safe_try; [|intros; apply safe_keeps_disk, keeps_disk_tg_logged].
  destruct (negb _); [apply safe_keeps_disk; keeps_disk_auto|].
  destruct (String.eqb _ "approve").
  - apply safe_bind; [apply safe_grantSubscription|]. intros e.
    apply safe_bind; [apply safe_handleReferral|]. intros _.
    apply safe_keeps_disk. keeps_disk_auto.
  - apply safe_keeps_disk. keeps_disk_auto.
Qed.

(** [/start] is the one handler that writes [referredBy]; what it may
    write is the premise. *)
Lemma safe_start ctx :
  (forall (m : gmap string UserRecord) u r,
     J m -> m !! String_of_Z (start_from ctx) = Some u ->
     truthy (referredBy u) = false -> r <> 0 -> r <> start_from ctx ->
     J (<[String_of_Z (start_from ctx) := set_referredBy (Some r) u]> m)) ->
  safe J (start env ctx).
Proof.
  intros Hlink. unfold start.
  apply (inv_safe_bind _ _ _ _ _ (inv_safe_loadDb J)). intros db Hdb.
  destruct (ensureUser db (Num (start_from ctx))) as [db1 user] eqn:E.
  apply safe_bind; [|intros; apply safe_keeps_disk; keeps_disk_auto].
  destruct (referral_of_payload (startPayload ctx)) as [[|refId]|];
    try by apply inv_safe_ret.
  destruct (Z.eqb_spec refId 0) as [|Hr0]; [by apply inv_safe_ret|].
  destruct (Z.eqb_spec refId (start_from ctx)) as [|Hrs]; [by apply inv_safe_ret|].
  cbn [negb andb].
  destruct (truthy (referredBy user)) eqn:Ht; cbn [negb]; [by apply inv_safe_ret|].
  apply safe_bind; [|intros; apply safe_keeps_disk, keeps_disk_tg_logged].
  apply safe_saveDb. simpl. apply Hlink; try done.
  - by apply (inv_ensureUser _ _ _ _ E).
  - by apply ensureUser_spec in E as [? _].
Qed.

Lemma safe_handler op :
  (forall ctx, safe J (start env ctx)) -> safe J (handler env op).
Proof.
  intros Hstart. destruct op; simpl;
    auto using safe_callback_query, safe_checkExpirations,
      safe_keeps_disk, keeps_disk_whoami, keeps_disk_status, keeps_disk_referidos,
      keeps_disk_admin, keeps_disk_pagar, keeps_disk_on_proof.
Qed.
End LedgerInvariant.

Lemma no_self_ref_start env ctx : safe no_self_ref (start env ctx).
Proof.
  apply safe_start; [apply _|].
  intros m u r HJ Hu _ _ Hrs j u0 r0 Hu0 Hr0.
  destruct (decide (String_of_Z (start_from ctx) = j)) as [<-|Hne].
  - rewrite lookup_insert_eq in Hu0. injection Hu0 as <-. simpl in Hr0.
    injection Hr0 as <-. intros Heq. by apply String_of_Z_inj in Heq.
  - rewrite lookup_insert_ne in Hu0 by done. by apply (HJ j u0 r0).
Qed.

Lemma start_own_code env ctx w :
  referral_of_payload (startPayload ctx) = Some (Num (start_from ctx)) ->
  disk (start env ctx w).2 = disk w.
Proof.
  intros Hp. revert w. change (keeps_disk (start env ctx)).
  unfold start. rewrite Hp, Z.eqb_refl, andb_false_r. keeps_disk_auto.
Qed.

Lemma referral_of_own_code uid :
  referral_of_payload (Some (getReferralCode uid)) = Some (Num uid).
Proof.
  unfold referral_of_payload, getReferralCode.
  change (strip_prefix "ref_" ("ref_" +:+ String_of_Z uid)) with (Some (String_of_Z uid)).
  cbv beta iota. by rewrite Number_of_String.
Qed.

(** ** The sweep among other handlers *)

Lemma await_alone env c w : await env (fun w0 => w0) c w = tg env c w.
Proof. unfold await. by destruct (tg env c w). Qed.

Lemma ban_unban_async_run env others ch uid w :
  exists w',
    try_catch (_ ← await env others (banChatMember ch uid);
               _ ← await env others (unbanChatMember ch uid);
               mret tt)
              (fun _ => mret tt) w = (Ret tt, w').
Proof.
  unfold try_catch, mbind, M_bind, await.
  destruct (tg env (banChatMember ch uid) w) as [[r|e] w1]; [|by eexists].
  destruct (tg env (unbanChatMember ch uid) (others w1)) as [[r'|e] w2]; by eexists.
Qed.

Lemma await_logged_run env others c w :
  exists w', await_logged env others c w = (Ret tt, w').
Proof.
  unfold await_logged, try_catch, ignore, mbind, M_bind, await.
  destruct (tg env c w) as [[r|e] w1]; by eexists.
Qed.

(** What the loop returns does not depend on the world it runs in: the
    object it updates is the one that was loaded. *)
Lemma sweep_loop_async_run env others ch now entries :
  forall db changed w,
  NoDup entries.*1 ->
  (forall k u, (k, u) ∈ entries -> users db !! k = Some u) ->
  exists db' changed' w',
    sweep_loop_async env others ch now entries db changed w = (Ret (db', changed'), w') /\
    (changed' = false -> db' = db /\ w' = w) /\
    (changed = true -> changed' = true) /\
    ((exists k u, (k, u) ∈ entries /\ stale now u = true) -> changed' = true) /\
    (forall k, users db' !! k =
               if decide (k ∈ entries.*1) then sweep_record now <$> users db !! k
               else users db !! k).
Proof.
  induction entries as [|[k d] rest IH]; intros db changed w Hnd Hin.
  - exists db, changed, w. repeat split; try done.
    intros (k & u & Hku & _). by apply elem_of_nil in Hku.
  - apply NoDup_cons in Hnd as [Hk Hnd].
    assert (users db !! k = Some d) as Hkd by (apply Hin; left).
    assert (exists db1 w1 changed1,
              sweep_loop_async env others ch now ((k, d) :: rest) db changed w
              = sweep_loop_async env others ch now rest db1 changed1 w1 /\
              (changed1 = false -> db1 = db /\ w1 = w) /\
              (changed = true -> changed1 = true) /\
              (stale now d = true -> changed1 = true) /\
              users db1 = <[k := sweep_record now d]> (users db))
      as (db1 & w1 & changed1 & -> & Hsame1 & Hmono1 & Hst1 & Hdb1).
    { unfold sweep_record, stale. simpl.
      destruct (truthy (expiresAt d)) eqn:Ht; simpl;
        [destruct (or0 (expiresAt d) <=? now) eqn:Hle|].
      - unfold mbind at 1, M_bind at 1.
        destruct (ban_unban_async_run env others ch (Number_of_string k) w) as (w1 & ->).
        unfold mbind at 1, M_bind at 1.
        destruct (await_logged_run env others (sendMessage (Number_of_string k) MsgExpired) w1)
          as [w2 ->].
        eexists _, _, _. split; [reflexivity|]. repeat split; try done.
        simpl. apply map_eq. intros j. rewrite lookup_alter, lookup_insert.
        destruct (decide (k = j)) as [<-|]; [by rewrite Hkd|done].
      - exists db, w, changed. repeat split; try done. by rewrite insert_id.
      - exists db, w, changed. repeat split; try done. by rewrite insert_id. }
    destruct (IH db1 changed1 w1 Hnd)
      as (db' & changed' & w' & -> & Hsame & Hmono & Hst & Hres).
    { intros k' u Hu. rewrite Hdb1, lookup_insert_ne; [by apply Hin; right|].
      intros ->. apply Hk. apply list_elem_of_fmap. by exists (k', u). }
    exists db', changed', w'. split; [done|]. split; [|split; [|split]].
    + intros Hc. destruct (Hsame Hc) as [-> ->]. apply Hsame1.
      destruct changed1; [|done]. by rewrite Hmono in Hc.
    + intros Hc. by apply Hmono, Hmono1.
    + intros (k' & u & [[= -> ->]|Hrest]%elem_of_cons & Hu).
      * by apply Hmono, Hst1.
      * apply Hst. by exists k', u.
    + intros j. rewrite Hres, Hdb1. simpl.
      destruct (decide (j = k)) as [->|Hne].
      * rewrite decide_False by done. rewrite decide_True by left.
        by rewrite lookup_insert_eq, Hkd.
      * rewrite lookup_insert_ne by done.
        destruct (decide (j ∈ rest.*1)) as [Hj|Hj].
        -- by rewrite decide_True by (by right).
        -- rewrite decide_False; [done|]. by intros [?|?]%elem_of_cons.
Qed.

Lemma sweep_loop_async_all env others ch now db w :
  exists db' changed' w',
    sweep_loop_async env others ch now (map_to_list (users db)) db false w
    = (Ret (db', changed'), w') /\
    (changed' = false -> w' = w) /\
    ((exists k u, users db !! k = Some u /\ stale now u = true) -> changed' = true) /\
    users db' = sweep_record now <$> users db.
Proof.
  destruct (sweep_loop_async_run env others ch now (map_to_list (users db)) db false w)
    as (db' & changed' & w' & Hrun & Hsame & _ & Hst & Hres).
  { apply NoDup_fst_map_to_list. }
  { intros k u. apply elem_of_map_to_list. }
  exists db', changed', w'. split; [done|]. split; [by intros [_ ?]%Hsame|]. split.
  - intros (k & u & Hku & Hu). apply Hst. exists k, u. by rewrite elem_of_map_to_list.
  - apply map_eq. intros k. rewrite Hres, lookup_fmap. case_decide as Hk; [done|].
    destruct (users db !! k) as [u|] eqn:Hu; [|done].
    exfalso. apply Hk. apply list_elem_of_fmap. exists (k, u).
    split; [done|]. by apply elem_of_map_to_list.
Qed.

Lemma sweep_loop_alone env ch now entries :
  forall db changed w,
    sweep_loop_async env (fun w0 => w0) ch now entries db changed w
    = sweep_loop env ch now entries db changed w.
Proof.
  induction entries as [|[k d] rest IH]; intros db changed w; [done|].
  simpl. destruct (negb (truthy (expiresAt d))); [apply IH|].
  destruct (or0 (expiresAt d) <=? now); [|apply IH].
  unfold await_logged, tg_logged, try_catch, ignore, mbind, M_bind.
  rewrite !await_alone.
  destruct (tg env (banChatMember ch (Number_of_string k)) w) as [[r|e] w1].
  - rewrite await_alone.
    destruct (tg env (unbanChatMember ch (Number_of_string k)) w1) as [[r'|e] w2];
      simpl; rewrite await_alone;
      destruct (tg env (sendMessage (Number_of_string k) MsgExpired) w2) as [[r2|e2] w3];
      apply IH.
  - simpl. rewrite await_alone.
    destruct (tg env (sendMessage (Number_of_string k) MsgExpired) w1) as [[r2|e2] w3];
      apply IH.
Qed.

(** With nothing else running, the sweep with its awaits is
    [checkExpirations]. *)
Lemma checkExpirations_alone env w :
  checkExpirations_async env (fun w0 => w0) w = checkExpirations env w.
Proof.
  unfold checkExpirations_async, checkExpirations.
  destruct (CHANNEL_ID (cfg env)) as [[|c ch]|]; try done.
  unfold mbind, M_bind, loadDb, getNow. by rewrite sweep_loop_alone.
Qed.

(** A property of the stored ledger that the other handlers maintain and
    that a pass of the sweep over a ledger maintains holds after a sweep
    among them. *)
Lemma safe_checkExpirations_async J `{!LedgerInv J} env others :
  (forall w, J (ledger w) -> J (ledger (others w))) ->
  safe J (checkExpirations_async env others).
Proof.
  intros Hothers.
  assert (forall c, safe J (await env others c)) as Hawait.
  { intros c w Hw. split; [|done]. unfold await.
    destruct (tg env c w) as [r w1] eqn:Hc. simpl. apply Hothers.
    change w1 with (r, w1).2. rewrite <- Hc. unfold ledger. by rewrite keeps_disk_tg. }
  assert (forall ch now entries db changed,
            J (users db) ->
            inv_safe J (sweep_loop_async env others ch now entries db changed)
              (fun r => J (users r.1))) as Hloop.
  { intros ch now entries. induction entries as [|[k d] rest IH]; intros db changed Hdb.
    - by apply inv_safe_ret.
    - simpl. destruct (negb (truthy (expiresAt d))); [by apply IH|].
      destruct (or0 (expiresAt d) <=? now); [|by apply IH].
      apply (inv_safe_bind _ _ _ (fun _ => True)).
      { apply inv_safe_try; [|intros; by apply inv_safe_ret].
        apply safe_bind; [apply Hawait|]. intros _.
        apply safe_bind; [apply Hawait|]. intros _. by apply inv_safe_ret. }
      intros _ _. apply (inv_safe_bind _ _ _ (fun _ => True)).
      { apply inv_safe_try; [|intros; by apply inv_safe_ret].
        apply safe_bind; [apply Hawait|]. intros _. by apply inv_safe_ret. }
      intros _ _. apply IH. simpl.
      destruct (users db !! k) as [u|] eqn:Hu.
      + replace (alter (set_expiresAt None) k (users db))
          with (<[k := set_expiresAt None u]> (users db)); [by apply (inv_put _ _ u)|].
        apply map_eq. intros j. rewrite lookup_alter, lookup_insert.
        destruct (decide (k = j)) as [<-|]; [by rewrite Hu|done].
      + replace (alter (set_expiresAt None) k (users db)) with (users db); [done|].
        apply map_eq. intros j. rewrite lookup_alter.
        destruct (decide (k = j)) as [<-|]; [by rewrite Hu|done]. }
  unfold checkExpirations_async.
  destruct (CHANNEL_ID (cfg env)) as [[|c ch]|]; try by apply inv_safe_ret.
  apply (inv_safe_bind _ _ _ _ _ (inv_safe_loadDb J)). intros db Hdb.
  apply safe_bind; [apply safe_keeps_disk, keeps_disk_getNow|]. intros now.
  apply (inv_safe_bind _ _ _ (fun r => J (users r.1))); [by apply Hloop|].
  intros [db' changed'] Hdb'. simpl in Hdb'.
  destruct changed'; [by apply safe_saveDb|by apply inv_safe_ret].
Qed.

(** C8 fails on the code. A sweep finds the lapsed subscription of user
    1003 and awaits [banChatMember]; while it waits, user 1004 opens the
    bot with the code of user 1001, and the link is written to the file.
    The sweep then resumes, finishes its loop and writes the ledger it had
    loaded before, in which there is no user 1004: the link is gone. When
    user 1004 comes back with the code of user 1003, [referredBy] is set
    to 1003. *)
Lemma sweep_erases_link :
  let env := env_at cfg_channel 2000000000 in
  let w1 := (checkExpirations_async env (arriving 1 (start env (dave "ref_1001")))
               (world_of (Some db_sample))).2 in
  let w2 := (start env (dave "ref_1003") w1).2 in
  exists db_link db_swept,
    trace w1
    = [TgEv (banChatMember "-1001234" (Num 1003)) true;
       WriteEv db_link true;
       TgEv (sendMessage (Num 1001) (MsgNewReferral "@dave" 1004)) true;
       TgEv (reply MsgWelcome) true;
       TgEv (unbanChatMember "-1001234" (Num 1003)) true;
       TgEv (sendMessage (Num 1003) MsgExpired) true;
       WriteEv db_swept true] /\
    referredBy <$> users db_link !! "1004" = Some (Some 1001) /\
    disk w1 = Some db_swept /\
    users db_swept !! "1004" = None /\
    referredBy <$> ledger w2 !! "1004" = Some (Some 1003).
Proof.
  intros env w1 w2. eexists _, _.
  split; [vm_compute; reflexivity|].
  repeat split; vm_compute; reflexivity.
Qed.

(** ** Failures of the file *)




(** ** When a record comes to exist *)

Lemma start_other_keys env ctx k v :
  k <> String_of_Z (start_from ctx) ->
  safe (fun m => m !! k = v) (start env ctx).
Proof.
  intros Hk. unfold start.
  apply (inv_safe_bind _ _ _ _ _ (inv_safe_loadDb _)). intros db Hdb.
  destruct (ensureUser db (Num (start_from ctx))) as [db1 user] eqn:E.
  apply safe_bind; [|intros; apply safe_keeps_disk; keeps_disk_auto].
  destruct (referral_of_payload (startPayload ctx)) as [[|refId]|];
    try by apply inv_safe_ret.
  destruct (negb (refId =? 0) && negb (refId =? start_from ctx));
    [|by apply inv_safe_ret].
  destruct (truthy (referredBy user)); simpl; [by apply inv_safe_ret|].
  apply safe_bind; [|intros; apply safe_keeps_disk, keeps_disk_tg_logged].
  apply safe_saveDb. simpl. rewrite lookup_insert_ne by done.
  apply ensureUser_spec in E as [_ [->|(_ & _ & ->)]]; [done|].
  by rewrite lookup_insert_ne.
Qed.

Lemma start_records_link env ctx w r :
  let key := String_of_Z (start_from ctx) in
  let old := default zero_user (ledger w !! key) in
  referral_of_payload (startPayload ctx) = Some (Num r) ->
  r <> 0 -> r <> start_from ctx ->
  truthy (referredBy old) = false ->
  fs_write_ok env (length (trace w)) = true ->
  ledger (start env ctx w).2 !! key = Some (set_referredBy (Some r) old).
Proof.
  intros key old Hp Hr0 Hrs Hold Hw.
  assert (keeps_disk (ignore (tg env (reply MsgWelcome)))) as Hreply by keeps_disk_auto.
  unfold start, mbind at 1, M_bind at 1, loadDb. rewrite Hp.
  apply Z.eqb_neq in Hr0, Hrs. rewrite Hr0, Hrs. cbn [negb andb].
  unfold ensureUser, get_user.
  change (users (default empty_db (disk w))) with (ledger w).
  change (String_of_num (Num (start_from ctx))) with key.
  subst old. destruct (ledger w !! key) as [u|]; simpl in Hold |- *.
  - rewrite Hold. cbn [negb]. unfold mbind at 1, M_bind at 1.
    unfold mbind at 1, M_bind at 1. rewrite ledger_saved by done.
    match goal with |- context [tg_logged ?e ?c ?w0] =>
      destruct (tg_logged_run e c w0) as [ok ->] end.
    unfold ledger. rewrite Hreply. simpl. by rewrite lookup_insert_eq.
  - unfold mbind at 1, M_bind at 1.
    unfold mbind at 1, M_bind at 1. rewrite ledger_saved by done.
    match goal with |- context [tg_logged ?e ?c ?w0] =>
      destruct (tg_logged_run e c w0) as [ok ->] end.
    unfold ledger. rewrite Hreply. simpl. by rewrite lookup_insert_eq.
Qed.

(** C7 (as amended). [ensureUser] puts a zero-value record for an absent
    user into the ledger the handler has loaded (and returns the stored
    one otherwise); the record reaches the file only when the handler then
    saves: a grant, the first-payment handler, and a [/start] that records
    a referral link all leave a record for the user. A [/start] without a
    referral payload writes nothing, a [/start] never changes another
    user's entry (the referrer gets no record), and a proof submission
    never writes. *)
Theorem record_creation (env : Env) :
  (forall db userId,
     get_user db (String_of_num userId) = None ->
     ensureUser db userId
     = (put_user db (String_of_num userId) zero_user, zero_user)) /\
  (forall db userId u,
     get_user db (String_of_num userId) = Some u -> ensureUser db userId = (db, u)) /\
  (forall w userId baseDays,
     fs_write_ok env (length (trace w)) = true ->
     is_Some (ledger (grantSubscription env userId baseDays w).2 !! String_of_num userId)) /\
  (forall w userId,
     fs_write_ok env (length (trace w)) = true ->
     is_Some (ledger (handleReferralOnFirstPayment env userId w).2 !! String_of_num userId)) /\
  (forall ctx w r,
     referral_of_payload (startPayload ctx) = Some (Num r) ->
     r <> 0 -> r <> start_from ctx ->
     truthy (referredBy (default zero_user (ledger w !! String_of_Z (start_from ctx)))) = false ->
     fs_write_ok env (length (trace w)) = true ->
     ledger (start env ctx w).2 !! String_of_Z (start_from ctx)
     = Some (set_referredBy (Some r)
               (default zero_user (ledger w !! String_of_Z (start_from ctx))))) /\
  (forall ctx w,
     referral_of_payload (startPayload ctx) = None -> disk (start env ctx w).2 = disk w) /\
  (forall ctx w k,
     k <> String_of_Z (start_from ctx) -> ledger (start env ctx w).2 !! k = ledger w !! k) /\
  (forall ctx w, disk (on_proof env ctx w).2 = disk w).
Proof.
  repeat split.
  - intros db userId Hn. unfold ensureUser. by rewrite Hn.
  - intros db userId u Hu. unfold ensureUser. by rewrite Hu.
  - intros w userId baseDays Hw.
    unfold grantSubscription, mbind, M_bind, loadDb, getNow.
    destruct (ensureUser _ _) as [db1 user]. rewrite ledger_saved by done.
    unfold ledger; simpl. rewrite lookup_insert_eq. by eexists.
  - intros w userId Hw.
    destruct (handleReferral_marks env userId w Hw) as (w1 & -> & Hf). simpl.
    destruct (ledger w1 !! String_of_num userId); [by eexists|done].
  - intros ctx w r. apply start_records_link.
  - intros ctx w Hp. revert w. change (keeps_disk (start env ctx)).
    unfold start. rewrite Hp. keeps_disk_auto.
  - intros ctx w k Hk.
    by apply (proj1 (start_other_keys env ctx k (ledger w !! k) Hk w eq_refl)).
  - intros ctx. apply keeps_disk_on_proof.
Qed.

Lemma record_creation_witness :
  ledger (start (env_at cfg_channel 2000000000)
            {| start_from := 1004; start_username := Some "dave";
               startPayload := Some "ref_1001" |}
            (world_of (Some db_sample))).2 !! "1004"
  = Some (set_referredBy (Some 1001) zero_user).
Proof.
  destruct (record_creation (env_at cfg_channel 2000000000)) as (_ & _ & _ & _ & H & _).
  apply (H {| start_from := 1004; start_username := Some "dave";
              startPayload := Some "ref_1001" |} (world_of (Some db_sample)) 1001);
    [vm_compute; reflexivity | lia | simpl; lia | vm_compute; reflexivity | reflexivity].
Defined.

(** C7, as stated, fails: a first [/start] without a referral code, a
    proof of payment, and being named in somebody's referral code each
    leave the file without a record for that user. *)
Lemma no_record_counterexample :
  (exists w',
     start (env_at cfg_channel 2000000000)
       {| start_from := 1004; start_username := Some "dave"; startPayload := None |}
       (world_of (Some empty_db)) = (Ret tt, w') /\
     ledger w' !! "1004" = None) /\
  (exists w',
     on_proof (env_at cfg_channel 2000000000)
       {| proof_from := 1004; proof_is_bot := false; proof_private := true;
          proof_username := Some "dave"; proof_first_name := Some "Dave";
          proof_last_name := None; proof_text := Some "TXID 9f3a";
          proof_photo := None; proof_document := None |}
       (world_of (Some empty_db)) = (Ret tt, w') /\
     ledger w' !! "1004" = None) /\
  (exists w',
     start (env_at cfg_channel 2000000000)
       {| start_from := 1004; start_username := Some "dave";
          startPayload := Some "ref_1001" |}
       (world_of (Some empty_db)) = (Ret tt, w') /\
     ledger w' !! "1001" = None).
Proof.
  repeat split; eexists; split; vm_compute; reflexivity.
Qed.

(** * Further properties of the code *)

(** ** Grants *)

Lemma grant_run env userId baseDays w :
  fs_write_ok env (length (trace w)) = true ->
  let now := clock env (ticks w) in
  let key := String_of_num userId in
  let old := default zero_user (ledger w !! key) in
  exists w',
    grantSubscription env userId baseDays w
    = (Ret (extend now ((baseDays + or0 (bonusDays old)) * DAY_MS) (expiresAt old)), w') /\
    ledger w' = <[key := granted now baseDays old]> (ledger w) /\
    ticks w' = S (ticks w) /\
    length (trace w') = S (length (trace w)).
Proof.
  intros Hw now key old.
  unfold grantSubscription, mbind, M_bind, loadDb, getNow, mret, M_ret.
  unfold ensureUser, get_user. fold key.
  change (users (default empty_db (disk w))) with (ledger w).
  subst old. destruct (ledger w !! key) as [u|] eqn:Hu; simpl;
    rewrite ledger_saved by done;
    (eexists; split; [reflexivity|]); unfold ledger at 1; simpl;
    rewrite ?insert_insert_eq; repeat split; try done;
    rewrite length_app; simpl; lia.
Qed.

(** X1. Two approvals in a row for the same user: the second grant
    starts from what the first one stored, so it adds its days on top of
    the first expiration while that one is still ahead of the clock (and
    restarts from the clock otherwise); the bonus days were consumed by
    the first grant, and [totalPaidCycles] has grown by 2. *)
Theorem grants_stack (env1 env2 : Env) (w : World) (userId : JsNum) (d1 d2 : Z) :
  let now1 := clock env1 (ticks w) in
  let now2 := clock env2 (S (ticks w)) in
  let key := String_of_num userId in
  let old := default zero_user (ledger w !! key) in
  let e1 := extend now1 ((d1 + or0 (bonusDays old)) * DAY_MS) (expiresAt old) in
  fs_write_ok env1 (length (trace w)) = true ->
  fs_write_ok env2 (S (length (trace w))) = true ->
  0 <= now2 ->
  exists w1 w2,
    grantSubscription env1 userId d1 w = (Ret e1, w1) /\
    grantSubscription env2 userId d2 w1
    = (Ret (if now2 <? e1 then e1 + d2 * DAY_MS else now2 + d2 * DAY_MS), w2) /\
    totalPaidCycles <$> ledger w2 !! key = Some (Some (or0 (totalPaidCycles old) + 2)) /\
    bonusDays <$> ledger w2 !! key = Some (Some 0).
Proof.
  intros now1 now2 key old e1 Hw1 Hw2 Hnow2.
  destruct (grant_run env1 userId d1 w Hw1) as (w1 & Hrun1 & Hl1 & Ht1 & Hn1).
  fold now1 key old e1 in Hrun1, Hl1.
  assert (fs_write_ok env2 (length (trace w1)) = true) as Hw2' by by rewrite Hn1.
  destruct (grant_run env2 userId d2 w1 Hw2') as (w2 & Hrun2 & Hl2 & _).
  fold key in Hrun2, Hl2. rewrite Ht1 in Hrun2, Hl2. fold now2 in Hrun2, Hl2.
  rewrite Hl1, lookup_insert_eq in Hrun2, Hl2. simpl in Hrun2, Hl2.
  exists w1, w2. split; [done|]. split.
  - rewrite Hrun2. do 2 f_equal. fold e1.
    replace ((d2 + 0) * DAY_MS) with (d2 * DAY_MS) by lia.
    unfold extend, truthy, or0.
    destruct (Z.ltb_spec now2 e1) as [Hlt|Hge]; [|by rewrite andb_false_r].
    assert ((e1 =? 0) = false) as -> by (apply Z.eqb_neq; lia). done.
  - rewrite Hl2, lookup_insert_eq. simpl. split; [|done].
    do 2 f_equal. lia.
Qed.

Lemma grants_stack_witness :
  exists w1 w2,
    grantSubscription (env_at cfg_channel 2000000000) (Num 1004) 30
      (world_of (Some db_sample)) = (Ret (2000000000 + 30 * DAY_MS), w1) /\
    grantSubscription (env_at cfg_channel 2000000500) (Num 1004) 30 w1
    = (Ret (2000000000 + 60 * DAY_MS), w2).
Proof.
  destruct (grants_stack (env_at cfg_channel 2000000000) (env_at cfg_channel 2000000500)
              (world_of (Some db_sample)) (Num 1004) 30 30)
    as (w1 & w2 & H1 & H2 & _); [reflexivity | reflexivity | simpl; lia |].
  exists w1, w2. split; [exact H1 | exact H2].
Defined.

(** ** Stepping through a handler *)

Lemma run_bind_ret {A B} (m : M A) (f : A -> M B) w a w1 :
  m w = (Ret a, w1) -> (m ≫= f) w = f a w1.
Proof. intros H. unfold mbind, M_bind. by rewrite H. Qed.

Lemma run_bind_throw {A B} (m : M A) (f : A -> M B) w e w1 :
  m w = (Throw e, w1) -> (m ≫= f) w = (Throw e, w1).
Proof. intros H. unfold mbind, M_bind. by rewrite H. Qed.

Lemma tg_resolves env c w r :
  transport env (length (trace w)) c = Some r ->
  tg env c w = (Ret r, log_event (TgEv c true) w).
Proof. intros H. unfold tg. by rewrite H. Qed.

Lemma tg_rejects env c w :
  transport env (length (trace w)) c = None ->
  tg env c w = (Throw (TgError c), log_event (TgEv c false) w).
Proof. intros H. unfold tg. by rewrite H. Qed.

Lemma ignore_tg_resolves env c w :
  transport env (length (trace w)) c <> None ->
  ignore (tg env c) w = (Ret tt, log_event (TgEv c true) w).
Proof.
  intros H. unfold ignore.
  destruct (transport env (length (trace w)) c) as [r|] eqn:E; [|done].
  by rewrite (run_bind_ret _ _ _ _ _ (tg_resolves _ _ _ _ E)).
Qed.

(** ** The approval coordinator, past the permission check *)

Lemma callback_query_ret env ctx w : (callback_query env ctx w).1 = Ret tt.
Proof.
  unfold callback_query, try_catch.
  match goal with |- context [let (_, _) := ?b w in _] => destruct (b w) as [[[]|e] w1] end.
  - done.
  - by destruct (tg_logged_run env (answerCbQuery CbError true) w1) as [ok ->].
Qed.

(** X2. Whatever the click, the ledger, the transport and the file
    system: the callback handler returns normally; every exception ends in
    its catch block. *)
Theorem callback_query_never_throws (env : Env) (ctx : CbCtx) (w : World) :
  exists w', callback_query env ctx w = (Ret tt, w').
Proof.
  pose proof (callback_query_ret env ctx w) as H.
  destruct (callback_query env ctx w) as [o w']. simpl in H. subst o. by exists w'.
Qed.

(** X3. A click by the administrator whose action is neither
    [approve] nor [reject] does nothing at all: no write, no message, and
    the click is not acknowledged. *)
Theorem unknown_action_ignored (env : Env) (ctx : CbCtx) (w : World) :
  strict_eq (Num (cb_from ctx)) (ADMIN_CHAT_ID (cfg env)) = true ->
  action (parseCallback (cb_data ctx)) <> "approve" ->
  action (parseCallback (cb_data ctx)) <> "reject" ->
  callback_query env ctx w = (Ret tt, w).
Proof.
  intros Hadm Ha Hr. unfold callback_query. rewrite Hadm. cbn [negb].
  apply String.eqb_neq in Ha, Hr. rewrite Ha, Hr. done.
Qed.

Lemma unknown_action_ignored_witness :
  callback_query (env_at cfg_channel 2000000000)
    {| cb_data := "refund:1002"; cb_from := 99; cb_msg := TextMsg |}
    (world_of (Some db_sample)) = (Ret tt, world_of (Some db_sample)).
Proof.
  apply unknown_action_ignored; [reflexivity | vm_compute; congruence | vm_compute; congruence].
Defined.

(** The edit [appendStatus] makes, by kind of the review message. *)
Lemma appendStatus_resolves env k extra w :
  (forall n c, transport env n c <> None) ->
  appendStatus env k extra w
  = (Ret tt, {| disk := disk w; ticks := ticks w;
                trace := (trace w ++ all_ok (status_edit k extra))%list |}).
Proof.
  intros Hok. destruct k; simpl.
  - unfold ignore. specialize (Hok (length (trace w)) (editMessageCaption extra)).
    destruct (transport env (length (trace w)) (editMessageCaption extra)) as [r|] eqn:E;
      [|done].
    by rewrite (run_bind_ret _ _ _ _ _ (tg_resolves _ _ _ _ E)).
  - unfold ignore. specialize (Hok (length (trace w)) (editMessageText extra)).
    destruct (transport env (length (trace w)) (editMessageText extra)) as [r|] eqn:E;
      [|done].
    by rewrite (run_bind_ret _ _ _ _ _ (tg_resolves _ _ _ _ E)).
  - destruct w as [d t tr]. simpl. by rewrite app_nil_r.
Qed.

(** X4. A rejection never touches the file nor reads the clock. When
    the transport works the calls are, in this order: the rejection sent to
    the user, the edit of the review message (caption for a photo or a
    document, text for a text, none otherwise), the acknowledgement. When
    the message to the user fails, the review message is not edited and
    the administrator gets the error alert. *)
Theorem reject_flow (env : Env) (ctx : CbCtx) (w : World) :
  let user := userId (parseCallback (cb_data ctx)) in
  strict_eq (Num (cb_from ctx)) (ADMIN_CHAT_ID (cfg env)) = true ->
  action (parseCallback (cb_data ctx)) = "reject" ->
  (disk (callback_query env ctx w).2 = disk w /\
   ticks (callback_query env ctx w).2 = ticks w) /\
  ((forall n c, transport env n c <> None) ->
   trace (callback_query env ctx w).2
   = (trace w ++ all_ok (sendMessage user MsgRejected
                          :: status_edit (cb_msg ctx) StRejected
                          ++ [answerCbQuery CbRejected false]))%list) /\
  (transport env (length (trace w)) (sendMessage user MsgRejected) = None ->
   exists ok,
     trace (callback_query env ctx w).2
     = (trace w ++ [TgEv (sendMessage user MsgRejected) false;
                    TgEv (answerCbQuery CbError true) ok])%list).
Proof.
  intros user Hadm Hact.
  assert (callback_query env ctx w
          = try_catch (_ ← tg env (sendMessage user MsgRejected);
                       _ ← appendStatus env (cb_msg ctx) StRejected;
                       ignore (tg env (answerCbQuery CbRejected false)))
                      (fun _ => tg_logged env (answerCbQuery CbError true)) w) as ->.
  { unfold callback_query. rewrite Hadm, Hact. done. }
  split; [|split].
  - split.
    + match goal with |- disk (?m w).2 = _ =>
        cut (keeps_disk m); [intros Hk; apply Hk|] end.
      keeps_disk_auto.
    + unfold try_catch, mbind, M_bind, tg, ignore, tg_logged, try_catch, mbind, M_bind, tg,
        appendStatus, ignore, mbind, M_bind, tg.
      repeat (match goal with
              | |- context [transport ?e ?n ?c] => destruct (transport e n c)
              | |- context [match ?k with MediaMsg => _ | _ => _ end] => destruct k
              end; simpl); done.
  - intros Hok. unfold try_catch.
    destruct (transport env (length (trace w)) (sendMessage user MsgRejected)) as [r|] eqn:E;
      [|by apply Hok in E].
    rewrite (run_bind_ret _ _ _ _ _ (tg_resolves _ _ _ _ E)).
    rewrite (run_bind_ret _ _ _ _ _ (appendStatus_resolves _ _ _ _ Hok)).
    rewrite ignore_tg_resolves by apply Hok.
    simpl. rewrite <- !app_assoc. unfold all_ok. simpl. rewrite fmap_app. done.
  - intros Hfail. unfold try_catch.
    rewrite (run_bind_throw _ _ _ _ _ (tg_rejects _ _ _ Hfail)).
    match goal with |- context [tg_logged ?e ?c ?w0] =>
      destruct (tg_logged_run e c w0) as [ok ->] end.
    exists ok. simpl. by rewrite <- app_assoc.
Qed.

Lemma set_firstPaymentDone_id (u : UserRecord) :
  firstPaymentDone u = true -> set_firstPaymentDone true u = u.
Proof. destruct u; simpl. by intros ->. Qed.

(** What the first-payment handler does to the payer's own record. *)
Lemma handleReferral_own env userId w u :
  fs_write_ok env (length (trace w)) = true ->
  ledger w !! String_of_num userId = Some u ->
  (forall r, referredBy u = Some r -> String_of_Z r <> String_of_num userId) ->
  exists w1,
    handleReferralOnFirstPayment env userId w = (Ret tt, w1) /\
    ledger w1 !! String_of_num userId = Some (set_firstPaymentDone true u).
Proof.
  intros Hw Hu Hself.
  destruct (firstPaymentDone u) eqn:Hf.
  { exists w. rewrite (handleReferral_done _ _ _ u), set_firstPaymentDone_id by done. done. }
  unfold handleReferralOnFirstPayment, mbind, M_bind, loadDb, ensureUser, get_user.
  change (users (default empty_db (disk w))) with (ledger w).
  rewrite Hu; simpl; rewrite Hf.
  destruct (referrer_of _ _) as [[r refUser]|] eqn:Hr.
  - apply referrer_of_Some in Hr as (Hby & _ & _). simpl in Hby.
    unfold getNow; simpl. rewrite ledger_saved by done.
    match goal with |- context [tg_logged ?e ?c ?w0] =>
      destruct (tg_logged_run e c w0) as [ok ->] end.
    eexists. split; [reflexivity|]. rewrite ledger_log_event. unfold ledger; simpl.
    rewrite lookup_insert_ne by by apply Hself. by rewrite lookup_insert_eq.
  - rewrite ledger_saved by done. eexists. split; [reflexivity|].
    unfold ledger; simpl. by rewrite lookup_insert_eq.
Qed.

(** After the grant and the first-payment handler have returned, nothing
    an approval still does reaches the file. *)
Lemma approve_disk env ctx w e w1 w2 :
  strict_eq (Num (cb_from ctx)) (ADMIN_CHAT_ID (cfg env)) = true ->
  action (parseCallback (cb_data ctx)) = "approve" ->
  grantSubscription env (userId (parseCallback (cb_data ctx))) SUBSCRIPTION_DAYS w
  = (Ret e, w1) ->
  handleReferralOnFirstPayment env (userId (parseCallback (cb_data ctx))) w1 = (Ret tt, w2) ->
  disk (callback_query env ctx w).2 = disk w2.
Proof.
  intros Hadm Hact Hg Hr. unfold callback_query. rewrite Hadm, Hact, String.eqb_refl.
  cbn [negb]. unfold try_catch.
  rewrite (run_bind_ret _ _ _ _ _ Hg), (run_bind_ret _ _ _ _ _ Hr).
  match goal with |- context [let (_, _) := ?m w2 in _] =>
    assert (keeps_disk m) as Hk by keeps_disk_auto;
    specialize (Hk w2); destruct (m w2) as [[[]|err] w3] end; simpl in *; [done|].
  match goal with |- context [tg_logged ?e ?c ?w0] =>
    destruct (tg_logged_run e c w0) as [ok ->] end.
  done.
Qed.

(** X5. An approval whose two writes succeed stores the granted
    record with [firstPaymentDone] set, for a user who is not their own
    referrer, whatever the transport then does: a failed invite or message
    does not undo the grant. *)
Theorem approve_commits (env : Env) (ctx : CbCtx) (w : World) :
  let user := userId (parseCallback (cb_data ctx)) in
  let key := String_of_num user in
  let old := default zero_user (ledger w !! key) in
  let now := clock env (ticks w) in
  strict_eq (Num (cb_from ctx)) (ADMIN_CHAT_ID (cfg env)) = true ->
  action (parseCallback (cb_data ctx)) = "approve" ->
  fs_write_ok env (length (trace w)) = true ->
  fs_write_ok env (S (length (trace w))) = true ->
  (forall r, referredBy old = Some r -> String_of_Z r <> key) ->
  exists w',
    callback_query env ctx w = (Ret tt, w') /\
    ledger w' !! key
    = Some (set_firstPaymentDone true (granted now SUBSCRIPTION_DAYS old)).
Proof.
  intros user key old now Hadm Hact Hw1 Hw2 Hself.
  destruct (grant_run env user SUBSCRIPTION_DAYS w Hw1) as (w1 & Hg & Hl1 & _ & Hn1).
  fold key old now in Hg, Hl1.
  destruct (handleReferral_own env user w1 (granted now SUBSCRIPTION_DAYS old))
    as (w2 & Hr & Hl2).
  { by rewrite Hn1. }
  { fold key. by rewrite Hl1, lookup_insert_eq. }
  { apply Hself. }
  pose proof (approve_disk env ctx w _ w1 w2 Hadm Hact Hg Hr) as Hd.
  pose proof (callback_query_ret env ctx w) as Hret.
  destruct (callback_query env ctx w) as [o w']. simpl in *. subst o.
  exists w'. split; [done|]. unfold ledger in *. by rewrite Hd.
Qed.

Lemma approve_commits_witness :
  exists w',
    callback_query (env_at cfg_channel 2000000000)
      {| cb_data := "approve:1004"; cb_from := 99; cb_msg := TextMsg |}
      (world_of (Some db_sample)) = (Ret tt, w') /\
    ledger w' !! "1004"
    = Some {| expiresAt := Some (2000000000 + 30 * DAY_MS); referredBy := None;
              referralsCount := Some 0; firstPaymentDone := true;
              totalPaidCycles := Some 1; bonusDays := Some 0 |}.
Proof.
  apply (approve_commits (env_at cfg_channel 2000000000)
           {| cb_data := "approve:1004"; cb_from := 99; cb_msg := TextMsg |}
           (world_of (Some db_sample)));
    [reflexivity | reflexivity | reflexivity | reflexivity | vm_compute; congruence].
Defined.

(** ** From a referral link to the referrer's credit *)




(** ** More on the sweep *)

Lemma sweep_loop_idle env ch now entries db changed w :
  (forall k u, (k, u) ∈ entries -> stale now u = false) ->
  sweep_loop env ch now entries db changed w = (Ret (db, changed), w).
Proof.
  induction entries as [|[k d] rest IH]; intros Hin; [done|].
  simpl. assert (stale now d = false) as Hd by (apply (Hin k); left).
  unfold stale in Hd.
  destruct (truthy (expiresAt d)); simpl in *; [rewrite Hd|];
    apply IH; intros k' u' H'; apply (Hin k'); by right.
Qed.

Lemma checkExpirations_idle env w :
  (forall k u, (k, u) ∈ map_to_list (ledger w) -> stale (clock env (ticks w)) u = false) ->
  checkExpirations env w = (Ret tt, w) \/
  checkExpirations env w
  = (Ret tt, {| disk := disk w; ticks := S (ticks w); trace := trace w |}).
Proof.
  intros Hfresh. unfold checkExpirations.
  destruct (CHANNEL_ID (cfg env)) as [[|c ch]|]; try by left.
  right. unfold mbind, M_bind, loadDb, getNow.
  by rewrite sweep_loop_idle.
Qed.

(** X7. A sweep over a ledger without a lapsed subscription makes no
    transport call and attempts no write. *)
Theorem sweep_nothing_expired (env : Env) (w : World) :
  (forall k u, ledger w !! k = Some u -> stale (clock env (ticks w)) u = false) ->
  exists w',
    checkExpirations env w = (Ret tt, w') /\ disk w' = disk w /\ trace w' = trace w.
Proof.
  intros Hfresh.
  destruct (checkExpirations_idle env w) as [-> | ->].
  - intros k u Hku. apply (Hfresh k). by apply elem_of_map_to_list.
  - by exists w.
  - by eexists.
Qed.

Lemma sweep_nothing_expired_witness :
  exists w',
    checkExpirations (env_at cfg_channel 500) (world_of (Some db_sample)) = (Ret tt, w') /\
    disk w' = Some db_sample /\ trace w' = [].
Proof.
  apply (sweep_nothing_expired (env_at cfg_channel 500) (world_of (Some db_sample))).
  intros k u Hu. change (ledger (world_of (Some db_sample))) with (users db_sample) in Hu.
  unfold db_sample in Hu. simpl in Hu.
  repeat (apply lookup_insert_Some in Hu as [[_ <-]|[_ Hu]]; [reflexivity|]).
  by rewrite lookup_empty in Hu.
Defined.

Lemma sweep_record_not_stale now now' (u : UserRecord) :
  now' <= now -> stale now' (sweep_record now u) = false.
Proof.
  intros Hle. unfold sweep_record. destruct (stale now u) eqn:Hs; [done|].
  unfold stale in *. destruct (truthy (expiresAt u)); simpl in *; [|done].
  apply Z.leb_gt in Hs. apply Z.leb_gt. lia.
Qed.

(** X8. A sweep that follows a completed sweep, with a clock that has
    not advanced, makes no transport call and attempts no write. *)
Theorem sweep_idempotent (env1 env2 : Env) (w w1 : World) :
  truthy_str (CHANNEL_ID (cfg env1)) = true ->
  checkExpirations env1 w = (Ret tt, w1) ->
  clock env2 (ticks w1) <= clock env1 (ticks w) ->
  exists w2,
    checkExpirations env2 w1 = (Ret tt, w2) /\ disk w2 = disk w1 /\ trace w2 = trace w1.
Proof.
  intros Hch Hrun Hle.
  destruct (checkExpirations_idle env2 w1) as [-> | ->]; [|by exists w1|by eexists].
  destruct (CHANNEL_ID (cfg env1)) as [[|c ch]|] eqn:E; try done.
  destruct (checkExpirations_run env1 w c ch E) as [(w' & Hrun' & Hl)|(w' & Hrun' & _)];
    rewrite Hrun in Hrun'; [|done].
  injection Hrun' as <-. intros k u Hu%elem_of_map_to_list.
  rewrite Hl, lookup_fmap in Hu.
  destruct (ledger w !! k) as [u0|]; simplify_eq/=. by apply sweep_record_not_stale.
Qed.

Lemma sweep_idempotent_witness :
  exists w2,
    checkExpirations (env_at cfg_channel 2000000000)
      (checkExpirations (env_at cfg_channel 2000000000) (world_of (Some db_sample))).2
    = (Ret tt, w2) /\
    trace w2
    = trace (checkExpirations (env_at cfg_channel 2000000000) (world_of (Some db_sample))).2.
Proof.
  destruct (sweep_idempotent (env_at cfg_channel 2000000000) (env_at cfg_channel 2000000000)
              (world_of (Some db_sample))
              (checkExpirations (env_at cfg_channel 2000000000)
                 (world_of (Some db_sample))).2)
    as (w2 & H1 & _ & H3); [reflexivity | vm_compute; reflexivity | simpl; lia |].
  exists w2. split; [exact H1 | exact H3].
Defined.

Lemma attempted_app_l c (t1 t2 : list Event) : attempted c t1 -> attempted c (t1 ++ t2).
Proof. intros [ok H]. exists ok. apply elem_of_app. by left. Qed.

Lemma attempted_app_r c (t1 t2 : list Event) : attempted c t2 -> attempted c (t1 ++ t2).
Proof. intros [ok H]. exists ok. apply elem_of_app. by right. Qed.

Lemma ban_unban_trace env ch uid w :
  exists w' evs,
    try_catch (_ ← tg env (banChatMember ch uid);
               _ ← tg env (unbanChatMember ch uid);
               mret tt)
              (fun _ => mret tt) w = (Ret tt, w') /\
    trace w' = (trace w ++ evs)%list /\
    attempted (banChatMember ch uid) evs.
Proof.
  unfold try_catch, mbind, M_bind, tg.
  destruct (transport env (length (trace w)) _); simpl.
  - destruct (transport env _ (unbanChatMember ch uid)); simpl;
      eexists _, [_; _]; (split; [reflexivity|]);
      (split; [simpl; by rewrite <- app_assoc|]);
      eexists; left.
  - eexists _, [_]. split; [reflexivity|]. split; [done|]. eexists; left.
Qed.

Lemma sweep_loop_trace env ch now entries :
  forall db changed w,
  exists evs,
    trace (sweep_loop env ch now entries db changed w).2 = (trace w ++ evs)%list /\
    forall k u, (k, u) ∈ entries -> stale now u = true ->
      attempted (banChatMember ch (Number_of_string k)) evs /\
      attempted (sendMessage (Number_of_string k) MsgExpired) evs.
Proof.
  induction entries as [|[k d] rest IH]; intros db changed w.
  - exists []. split; [by rewrite app_nil_r|]. intros k u Hin. inversion Hin.
  - simpl. destruct (truthy (expiresAt d)) eqn:Ht; simpl;
      [destruct (or0 (expiresAt d) <=? now) eqn:Hle|].
    + unfold mbind at 1, M_bind at 1.
      destruct (ban_unban_trace env ch (Number_of_string k) w) as (w1 & evs1 & -> & Ht1 & Hb).
      unfold mbind at 1, M_bind at 1.
      destruct (tg_logged_run env (sendMessage (Number_of_string k) MsgExpired) w1)
        as [ok ->].
      match goal with |- context [sweep_loop env ch now rest ?db1 true ?w2] =>
        destruct (IH db1 true w2) as (evs2 & Htr & Hall) end.
      exists (evs1 ++ [TgEv (sendMessage (Number_of_string k) MsgExpired) ok] ++ evs2)%list.
      split.
      * rewrite Htr. simpl. rewrite Ht1. by rewrite <- !app_assoc.
      * intros k' u Hin Hs. apply elem_of_cons in Hin as [[= -> ->]|Hin].
        -- split; [by apply attempted_app_l|].
           apply attempted_app_r, attempted_app_l. eexists; left.
        -- destruct (Hall k' u Hin Hs). split; by do 2 apply attempted_app_r.
    + destruct (IH db changed w) as (evs & Htr & Hall). exists evs. split; [done|].
      intros k' u Hin Hs. apply elem_of_cons in Hin as [[= -> ->]|Hin]; [|by apply (Hall k' u)].
      unfold stale in Hs. by rewrite Ht, Hle in Hs.
    + destruct (IH db changed w) as (evs & Htr & Hall). exists evs. split; [done|].
      intros k' u Hin Hs. apply elem_of_cons in Hin as [[= -> ->]|Hin]; [|by apply (Hall k' u)].
      unfold stale in Hs. by rewrite Ht in Hs.
Qed.

(** X9. Failures of the transport never hide a lapsed user from the
    sweep: for every record that is lapsed when the sweep starts, the
    removal from the channel and the notice to the user are both
    attempted, whatever happened with the users before. *)
Theorem sweep_reaches_every_expired (env : Env) (w : World) (chan : string) :
  CHANNEL_ID (cfg env) = Some chan -> chan <> EmptyString ->
  exists evs,
    trace (checkExpirations env w).2 = (trace w ++ evs)%list /\
    forall k u,
      ledger w !! k = Some u -> stale (clock env (ticks w)) u = true ->
      attempted (banChatMember chan (Number_of_string k)) evs /\
      attempted (sendMessage (Number_of_string k) MsgExpired) evs.
Proof.
  intros Hch Hne. unfold checkExpirations. rewrite Hch.
  destruct chan as [|c ch]; [done|].
  unfold mbind at 1, M_bind at 1, loadDb.
  unfold mbind at 1, M_bind at 1, getNow.
  set (now := clock env (ticks w)).
  set (db := default empty_db (disk w)).
  set (w0 := {| disk := disk w; ticks := S (ticks w); trace := trace w |}).
  destruct (sweep_loop_trace env (String c ch) now (map_to_list (users db)) db false w0)
    as (evs & Htr & Hall).
  assert (forall k u, ledger w !! k = Some u -> stale now u = true ->
            attempted (banChatMember (String c ch) (Number_of_string k)) evs /\
            attempted (sendMessage (Number_of_string k) MsgExpired) evs) as Hall'.
  { intros k u Hu. apply Hall. by apply elem_of_map_to_list. }
  destruct (sweep_loop_all env (String c ch) now db w0)
    as (db' & changed' & w' & Hloop & _).
  unfold mbind, M_bind. rewrite Hloop in Htr |- *. simpl in Htr.
  destruct changed'.
  - exists (evs ++ [WriteEv db' (fs_write_ok env (length (trace w')))])%list. split.
    + unfold saveDb. destruct (fs_write_ok env (length (trace w'))); simpl;
        rewrite Htr; by rewrite <- app_assoc.
    + intros k u Hu Hs. destruct (Hall' k u Hu Hs). split; by apply attempted_app_l.
  - exists evs. split; [done|]. exact Hall'.
Qed.

Lemma sweep_reaches_every_expired_witness :
  exists evs,
    trace (checkExpirations (env_at cfg_channel 2000000000) (world_of (Some db_sample))).2
    = evs /\
    attempted (banChatMember "-1001234" (Num 1003)) evs /\
    attempted (sendMessage (Num 1003) MsgExpired) evs.
Proof.
  destruct (sweep_reaches_every_expired (env_at cfg_channel 2000000000)
              (world_of (Some db_sample)) "-1001234") as (evs & Htr & Hall);
    [reflexivity | done |].
  exists evs. split; [exact Htr|].
  apply (Hall "1003" carol); vm_compute; reflexivity.
Defined.

(** ** Commands that only read *)

Lemma active_running now u :
  active now u <-> truthy (expiresAt u) && (now <? or0 (expiresAt u)) = true.
Proof.
  unfold active, truthy, or0. destruct (expiresAt u) as [e|]; simpl.
  - rewrite andb_true_iff, negb_true_iff, Z.eqb_neq, Z.ltb_lt. split.
    + by intros (e' & [= <-] & H).
    + intros H. by exists e.
  - split; [by intros (e & He & _)|done].
Qed.

Lemma ceil_div_bounds (a b : Z) :
  0 < b -> (ceil_div a b - 1) * b < a <= ceil_div a b * b.
Proof.
  intros Hb. unfold ceil_div.
  pose proof (Z.div_mod (- a) b ltac:(lia)) as Hdm.
  pose proof (Z.mod_pos_bound (- a) b Hb) as Hm. nia.
Qed.

Lemma reply_run env m w :
  exists o w',
    ignore (tg env (reply m)) w = (o, w') /\
    trace w' = (trace w ++ [TgEv (reply m)
                              (resolved (transport env (length (trace w)) (reply m)))])%list /\
    disk w' = disk w.
Proof.
  unfold ignore, mbind, M_bind, tg.
  destruct (transport env (length (trace w)) (reply m)); simpl; by eexists _, _.
Qed.

(** X10. [/status] makes one reply and leaves the file alone. The reply
    is "no subscription" without a record or with a falsy [expiresAt],
    "already expired" when [expiresAt <= now], and otherwise the expiration
    with the days left rounded up: at least 1, and the least number of
    whole days that covers the remaining time. *)
Theorem status_reply (env : Env) (from : Z) (w : World) :
  let now := clock env (ticks w) in
  exists m o w',
    status env from w = (o, w') /\
    trace w'
    = (trace w ++ [TgEv (reply m)
                     (resolved (transport env (length (trace w)) (reply m)))])%list /\
    disk w' = disk w /\
    match ledger w !! String_of_Z from with
    | Some u =>
        match expiresAt u with
        | Some e =>
            if e =? 0 then m = MsgNoSubscription
            else if e <=? now then m = MsgAlreadyExpired
            else exists d, m = MsgStatus e d /\ 1 <= d /\
                           (d - 1) * DAY_MS < e - now <= d * DAY_MS
        | None => m = MsgNoSubscription
        end
    | None => m = MsgNoSubscription
    end.
Proof.
  intros now.
  unfold status, mbind at 1, M_bind at 1, loadDb, get_user. cbv beta iota.
  change (users (default empty_db (disk w))) with (ledger w).
  destruct (ledger w !! String_of_Z from) as [u|].
  2:{ destruct (reply_run env MsgNoSubscription w) as (o & w' & Hrun & ? & ?).
      by exists MsgNoSubscription, o, w'. }
  unfold truthy, or0. destruct (expiresAt u) as [e|].
  2:{ destruct (reply_run env MsgNoSubscription w) as (o & w' & Hrun & ? & ?).
      by exists MsgNoSubscription, o, w'. }
  destruct (e =? 0) eqn:He0; simpl.
  { destruct (reply_run env MsgNoSubscription w) as (o & w' & Hrun & ? & ?).
    by exists MsgNoSubscription, o, w'. }
  unfold mbind, M_bind, getNow. fold now.
  set (w0 := {| disk := disk w; ticks := S (ticks w); trace := trace w |}).
  destruct (Z.leb_spec (e - now) 0) as [Hle|Hgt].
  - destruct (reply_run env MsgAlreadyExpired w0) as (o & w' & Hrun & ? & ?).
    exists MsgAlreadyExpired, o, w'. repeat split; try done.
    destruct (Z.leb_spec e now); [done|lia].
  - destruct (reply_run env (MsgStatus (formatDate e) (ceil_div (e - now) DAY_MS)) w0)
      as (o & w' & Hrun & ? & ?).
    eexists _, o, w'. repeat split; try done.
    destruct (Z.leb_spec e now); [lia|].
    eexists. split; [reflexivity|].
    pose proof (ceil_div_bounds (e - now) DAY_MS ltac:(done)) as Hb.
    split; [|exact Hb]. unfold DAY_MS in *. nia.
Qed.

(** X11. [/admin] answers nobody but the administrator: from any other
    sender it does nothing at all. To the administrator it sends one
    message with the number of records in the ledger and the number of
    those whose subscription is running at the clock reading (an
    [expiresAt] that is present, not [0] and later than it); the file is
    left alone. *)
Theorem admin_panel (env : Env) (from : Z) (w : World) :
  let now := clock env (ticks w) in
  let total := Z.of_nat (size (ledger w)) in
  let actives :=
    Z.of_nat (size (filter (fun kv : string * UserRecord => active now kv.2) (ledger w))) in
  let panel := reply (MsgAdminPanel total actives) in
  (strict_eq (Num from) (ADMIN_CHAT_ID (cfg env)) = false -> admin env from w = (Ret tt, w)) /\
  (strict_eq (Num from) (ADMIN_CHAT_ID (cfg env)) = true ->
   exists o w',
     admin env from w = (o, w') /\
     trace w'
     = (trace w ++ [TgEv panel (resolved (transport env (length (trace w)) panel))])%list /\
     disk w' = disk w).
Proof.
  intros now total actives panel.
  split; intros Hadm; unfold admin; rewrite Hadm; [done|]. cbn [negb].
  unfold mbind at 1, M_bind at 1, loadDb. unfold mbind, M_bind, getNow. cbv beta iota.
  change (users (default empty_db (disk w))) with (ledger w). fold now total.
  assert (Z.of_nat (length (filter
            (fun kv : string * UserRecord =>
               Is_true (truthy (expiresAt kv.2) && (now <? or0 (expiresAt kv.2))))
            (map_to_list (ledger w)))) = actives) as ->.
  { subst actives. f_equal. rewrite map_filter_alt, map_size_list_to_map.
    - f_equal. apply list_filter_iff. intros [k u]. simpl.
      rewrite active_running. by destruct (truthy _ && _).
    - apply (sublist_NoDup _ (map_to_list (ledger w)).*1).
      + apply NoDup_fst_map_to_list.
      + apply fmap_sublist, sublist_filter. }
  match goal with |- context [ignore (tg env (reply ?m)) ?w0] =>
    destruct (reply_run env m w0) as (o & w' & Hrun & ? & ?) end.
  by eexists o, w'.
Qed.

Lemma admin_panel_witness :
  exists o w',
    admin (env_at cfg_channel 2000000000) 99 (world_of (Some db_sample)) = (o, w') /\
    trace w' = [TgEv (reply (MsgAdminPanel 3 1)) true].
Proof.
  destruct (admin_panel (env_at cfg_channel 2000000000) 99 (world_of (Some db_sample)))
    as [_ H].
  destruct H as (o & w' & H0 & H1 & _); [reflexivity|].
  exists o, w'. split; [exact H0|]. rewrite H1. vm_compute. reflexivity.
Defined.

(** X12. Only [/start], the callbacks and the sweep can write the
    file: [/whoami], [/status], [/referidos] (which calls [ensureUser]),
    [/admin], [/pagar] and proof submissions leave it as it is, whatever the
    transport answers. *)
Theorem read_only_operations (env : Env) (op : Op) (w : World) :
  may_write op = false -> disk (handler env op w).2 = disk w.
Proof.
  destruct op; try done; intros _; simpl.
  - apply keeps_disk_whoami.
  - apply keeps_disk_status.
  - apply keeps_disk_referidos.
  - apply keeps_disk_admin.
  - apply keeps_disk_pagar.
  - apply keeps_disk_on_proof.
Qed.

Lemma read_only_operations_witness :
  disk (handler (env_at cfg_channel 2000000000) (OpReferidos 1004)
          (world_of (Some db_sample))).2 = Some db_sample.
Proof.
  apply (read_only_operations (env_at cfg_channel 2000000000) (OpReferidos 1004)
           (world_of (Some db_sample))). reflexivity.
Defined.

(** ** Proof submissions *)

(** X13. A message from a bot, a message outside a private chat, and a
    text that starts with a slash are not taken as proofs of payment:
    nothing is sent and nothing changes. *)
Theorem proof_ignored (env : Env) (ctx : ProofCtx) (w : World) :
  proof_is_bot ctx = true \/ proof_private ctx = false \/
  starts_with_slash (proof_text ctx) = true ->
  on_proof env ctx w = (Ret tt, w).
Proof.
  unfold on_proof. intros [->|[H|H]]; [done| |].
  - rewrite H. by destruct (proof_is_bot ctx).
  - rewrite H. by destruct (proof_is_bot ctx), (proof_private ctx).
Qed.

Lemma proof_ignored_witness :
  on_proof (env_at cfg_channel 2000000000)
    {| proof_from := 1004; proof_is_bot := false; proof_private := true;
       proof_username := None; proof_first_name := None; proof_last_name := None;
       proof_text := Some "/unknown"; proof_photo := None; proof_document := None |}
    (world_of (Some db_sample)) = (Ret tt, world_of (Some db_sample)).
Proof. apply proof_ignored. right. right. reflexivity. Defined.

(** X14. A proof of payment from a person in a private chat, with a
    working transport: the sender is acknowledged first, then one review
    request goes to the administrator (the photo if there is one, else the
    document, else the text); when no administrator is configured the
    sender is only told so. *)
Theorem proof_forwarded (env : Env) (ctx : ProofCtx) (w : World) :
  let adminId := ADMIN_CHAT_ID (cfg env) in
  proof_is_bot ctx = false -> proof_private ctx = true ->
  starts_with_slash (proof_text ctx) = false ->
  (forall n c, transport env n c <> None) ->
  exists w',
    on_proof env ctx w = (Ret tt, w') /\
    disk w' = disk w /\
    trace w'
    = (trace w ++ all_ok (if truthy_num adminId
                          then reply MsgProofReceived :: forwarded adminId ctx
                          else [reply MsgNoAdmin]))%list.
Proof.
  intros adminId Hbot Hpriv Hcmd Hok.
  unfold on_proof. rewrite Hbot, Hpriv, Hcmd. cbn [negb]. fold adminId.
  destruct (truthy_num adminId); cbn [negb].
  - unfold mbind at 1, M_bind at 1.
    destruct (transport env (length (trace w)) (reply MsgProofReceived)) as [r|] eqn:E;
      [|by apply Hok in E].
    rewrite (tg_resolves _ _ _ _ E). unfold forwarded.
    destruct (proof_photo ctx) as [f|]; [|destruct (proof_document ctx) as [f|];
      [|destruct (proof_text ctx) as [[|c t]|]]];
      try (rewrite ignore_tg_resolves by apply Hok; eexists; repeat split;
           simpl; by rewrite <- app_assoc);
      eexists; repeat split; done.
  - rewrite ignore_tg_resolves by apply Hok. by eexists.
Qed.

Lemma proof_forwarded_witness :
  exists w',
    on_proof (env_at cfg_channel 2000000000)
      {| proof_from := 1004; proof_is_bot := false; proof_private := true;
         proof_username := Some "dave"; proof_first_name := Some "Dave";
         proof_last_name := None; proof_text := Some "TXID 9f3a";
         proof_photo := None; proof_document := None |}
      (world_of (Some db_sample)) = (Ret tt, w') /\
    trace w' = [TgEv (reply MsgProofReceived) true;
                TgEv (sendMessage (Num 99)
                        (MsgReview "Dave" "@dave" 1004 (Some "TXID 9f3a"))) true].
Proof.
  destruct (proof_forwarded (env_at cfg_channel 2000000000)
              {| proof_from := 1004; proof_is_bot := false; proof_private := true;
                 proof_username := Some "dave"; proof_first_name := Some "Dave";
                 proof_last_name := None; proof_text := Some "TXID 9f3a";
                 proof_photo := None; proof_document := None |}
              (world_of (Some db_sample))) as (w' & H1 & _ & H3);
    [reflexivity | reflexivity | reflexivity | done |].
  exists w'. split; [exact H1 | exact H3].
Defined.

(** ** Invites *)

(** X15. The only transport call [createUniqueInviteLink] makes is an
    invite request for the configured channel, for one use, expiring
    neither after [expiresAt] nor after [now] + 24 h; without a channel it
    makes no call and returns the static link. *)
Theorem invite_within_bounds (env : Env) (userId : JsNum) (expiresAt : Z) (w : World) :
  let now := clock env (ticks w) in
  exists evs,
    trace (createUniqueInviteLink env userId expiresAt w).2 = (trace w ++ evs)%list /\
    (truthy_str (CHANNEL_ID (cfg env)) = false ->
     createUniqueInviteLink env userId expiresAt w
     = (Ret (CHANNEL_INVITE_LINK (cfg env)), w)) /\
    forall e, e ∈ evs ->
      exists chan d ok,
        e = TgEv (createChatInviteLink chan d 1) ok /\
        CHANNEL_ID (cfg env) = Some chan /\
        d * 1000 <= expiresAt /\ d * 1000 <= now + 24 * 60 * 60 * 1000.
Proof.
  intros now. unfold createUniqueInviteLink.
  destruct (CHANNEL_ID (cfg env)) as [[|c ch]|] eqn:Hch;
    try (exists []; split; [by rewrite app_nil_r|]; split; [done|];
         intros e He; inversion He).
  unfold try_catch, mbind, M_bind, getNow, tg; simpl. fold now.
  set (d := Z.min (expiresAt / 1000) (now / 1000 + 24 * 60 * 60)).
  assert (d * 1000 <= expiresAt /\ d * 1000 <= now + 24 * 60 * 60 * 1000) as [Hd1 Hd2].
  { pose proof (Z.mul_div_le expiresAt 1000 ltac:(lia)).
    pose proof (Z.mul_div_le now 1000 ltac:(lia)). subst d. lia. }
  destruct (transport env (length (trace w)) _); simpl;
    (eexists [_]; split; [reflexivity|]; split; [done|]);
    intros e ->%list_elem_of_singleton; by eexists _, _, _.
Qed.

Lemma invite_within_bounds_witness :
  createUniqueInviteLink (env_at cfg_link_only 2000000000) bob_id 4592000000
    (world_of (Some db_sample))
  = (Ret (Some "https://t.me/+static"), world_of (Some db_sample)).
Proof.
  destruct (invite_within_bounds (env_at cfg_link_only 2000000000) bob_id 4592000000
              (world_of (Some db_sample))) as (evs & _ & H & _).
  apply H. reflexivity.
Defined.

(** ** Payloads and keys *)

Lemma append_assoc (a b c : string) : (a +:+ b) +:+ c = a +:+ b +:+ c.
Proof.
  induction a as [|ch a IH]; [done|].
  change (String ch ((a +:+ b) +:+ c) = String ch (a +:+ b +:+ c)). by rewrite IH.
Qed.

(** X16. Payloads other than the two-segment ones of [buildCallback]:
    without a colon the whole payload is the action and the identity is
    [NaN]; with more segments the action is still the first one, whatever
    is behind the second colon is ignored, and a payload that
    [buildCallback] built still yields its identity when more segments
    follow. *)
Theorem parseCallback_edges (a b c : string) (uid : Z) :
  string_forall (not_char ":") a = true ->
  string_forall (not_char ":") b = true ->
  parseCallback a = {| action := a; userId := NaN |} /\
  action (parseCallback (a +:+ ":" +:+ b)) = a /\
  parseCallback (a +:+ ":" +:+ b +:+ ":" +:+ c) = parseCallback (a +:+ ":" +:+ b) /\
  parseCallback (buildCallback a uid +:+ ":" +:+ c) = {| action := a; userId := Num uid |}.
Proof.
  intros Ha Hb.
  assert (forall b', string_forall (not_char ":") b' = true ->
            parseCallback (a +:+ ":" +:+ b' +:+ ":" +:+ c)
            = {| action := a; userId := Number_of_string b' |}) as Hthree.
  { intros b' Hb'. unfold parseCallback.
    change (":" +:+ b' +:+ ":" +:+ c) with (String ":" (b' +:+ String ":" c)).
    rewrite (split_app _ a _ Ha), (split_app _ b' _ Hb'). done. }
  assert (parseCallback (a +:+ ":" +:+ b)
          = {| action := a; userId := Number_of_string b |}) as Htwo.
  { unfold parseCallback. change (":" +:+ b) with (String ":" b).
    rewrite (split_app _ a _ Ha), (split_no_sep _ b Hb). done. }
  split; [|split; [|split]].
  - unfold parseCallback. by rewrite (split_no_sep _ a Ha).
  - by rewrite Htwo.
  - by rewrite Htwo, Hthree.
  - unfold buildCallback. rewrite append_assoc.
    change ((":" +:+ String_of_Z uid) +:+ ":" +:+ c)
      with (":" +:+ String_of_Z uid +:+ ":" +:+ c).
    rewrite Hthree by apply String_of_Z_chars. by rewrite Number_of_String.
Qed.

Lemma parseCallback_edges_witness :
  parseCallback "approve" = {| action := "approve"; userId := NaN |} /\
  parseCallback "approve:12:34" = {| action := "approve"; userId := Num 12 |}.
Proof.
  destruct (parseCallback_edges "approve" "12" "34" 12) as (H1 & _ & _ & H4);
    [reflexivity | reflexivity |].
  split; [exact H1 | exact H4].
Defined.

Lemma append_cancel_l (p s t : string) : p +:+ s = p +:+ t -> s = t.
Proof. induction p as [|c p IH]; simpl; [done|]. intros [= H]. by apply IH. Qed.

(** X17. Distinct identities have distinct ledger keys, referral codes
    and callback payloads, so a write under one user's key leaves every
    other user's record in place. *)
Theorem identities_do_not_collide (a b : Z) (act : string) :
  (String_of_Z a = String_of_Z b -> a = b) /\
  (getReferralCode a = getReferralCode b -> a = b) /\
  (buildCallback act a = buildCallback act b -> a = b) /\
  (a <> b -> forall (m : gmap string UserRecord) u,
     <[String_of_Z a := u]> m !! String_of_Z b = m !! String_of_Z b).
Proof.
  repeat split.
  - apply String_of_Z_inj.
  - unfold getReferralCode. intros H%append_cancel_l. by apply String_of_Z_inj.
  - unfold buildCallback. intros H%append_cancel_l%append_cancel_l.
    by apply String_of_Z_inj.
  - intros Hab m u. apply lookup_insert_ne. intros H. by apply String_of_Z_inj in H.
Qed.

Lemma identities_do_not_collide_witness :
  <[String_of_Z 1001 := alice]> (users db_sample) !! String_of_Z 1002 = Some bob.
Proof.
  destruct (identities_do_not_collide 1001 1002 "approve") as (_ & _ & _ & H).
  rewrite H by lia. vm_compute. reflexivity.
Defined.

Lemma reject_flow_witness :
  trace (callback_query (env_at cfg_channel 2000000000)
           {| cb_data := "reject:1002"; cb_from := 99; cb_msg := MediaMsg |}
           (world_of (Some db_sample))).2
  = [TgEv (sendMessage (Num 1002) MsgRejected) true;
     TgEv (editMessageCaption StRejected) true;
     TgEv (answerCbQuery CbRejected false) true].
Proof.
  destruct (reject_flow (env_at cfg_channel 2000000000)
              {| cb_data := "reject:1002"; cb_from := 99; cb_msg := MediaMsg |}
              (world_of (Some db_sample))) as (_ & H & _); [reflexivity | reflexivity |].
  apply H. done.
Defined.

(** ** Signup notices *)

Lemma start_loads (ctx : StartCtx) (w : World) :
  let key := String_of_Z (start_from ctx) in
  let old := default zero_user (ledger w !! key) in
  exists db1,
    ensureUser (default empty_db (disk w)) (Num (start_from ctx)) = (db1, old) /\
    users db1 !! key = Some old.
Proof.
  intros key old. unfold ensureUser, get_user. subst old.
  change (users (default empty_db (disk w))) with (ledger w).
  change (String_of_num (Num (start_from ctx))) with key.
  destruct (ledger w !! key) as [u|] eqn:Hu; eexists; (split; [reflexivity|]).
  - done.
  - simpl. apply lookup_insert_eq.
Qed.

(** A [/start] on which the guards of l.243-246 fail. *)
Lemma start_quiet env ctx w :
  let old := default zero_user (ledger w !! String_of_Z (start_from ctx)) in
  match referral_of_payload (startPayload ctx) with
  | Some (Num r) =>
      negb (r =? 0) && negb (r =? start_from ctx) && negb (truthy (referredBy old)) = false
  | _ => True
  end ->
  exists o w',
    start env ctx w = (o, w') /\ disk w' = disk w /\
    trace w' = (trace w ++ [TgEv (reply MsgWelcome)
                              (resolved (transport env (length (trace w))
                                           (reply MsgWelcome)))])%list.
Proof.
  intros old Hno.
  destruct (start_loads ctx w) as (db1 & E & _). fold old in E.
  destruct (start env ctx w) as [o w'] eqn:Hrun.
  unfold start, mbind at 1, M_bind at 1, loadDb in Hrun. cbv beta iota in Hrun.
  rewrite E in Hrun. exists o, w'. split; [done|].
  assert ((mret tt ≫= fun _ => ignore (tg env (reply MsgWelcome))) w = (o, w')) as Hrun'.
  { destruct (referral_of_payload (startPayload ctx)) as [[|r]|]; try done.
    destruct (negb (r =? 0) && negb (r =? start_from ctx)); [|done]. simpl in Hno.
    by rewrite Hno in Hrun. }
  unfold mbind, M_bind, mret, M_ret in Hrun'.
  destruct (reply_run env MsgWelcome w) as (o2 & w2 & Hr & ? & ?).
  rewrite Hr in Hrun'. by injection Hrun' as <- <-.
Qed.

(** A [/start] that passes them. *)
Lemma start_linking env ctx w r :
  let key := String_of_Z (start_from ctx) in
  let old := default zero_user (ledger w !! key) in
  referral_of_payload (startPayload ctx) = Some (Num r) ->
  r <> 0 -> r <> start_from ctx -> truthy (referredBy old) = false ->
  fs_write_ok env (length (trace w)) = true ->
  exists db ok ok' o w',
    start env ctx w = (o, w') /\
    users db !! key = Some (set_referredBy (Some r) old) /\
    (forall k, k <> key -> users db !! k = ledger w !! k) /\
    disk w' = Some db /\
    trace w'
    = (trace w ++ [WriteEv db true;
                   TgEv (sendMessage (Num r)
                           (MsgNewReferral (display_username (start_username ctx))
                              (start_from ctx))) ok;
                   TgEv (reply MsgWelcome) ok'])%list.
Proof.
  intros key old Hp Hr0 Hrs Hold Hw.
  destruct (start_loads ctx w) as (db1 & E & Hold1). fold key old in E, Hold1.
  assert (forall k, k <> key -> users db1 !! k = ledger w !! k) as Hframe.
  { intros k Hk. apply ensureUser_spec in E as [_ [->|(_ & _ & ->)]]; [done|].
    by rewrite lookup_insert_ne. }
  destruct (start env ctx w) as [o w'] eqn:Hrun.
  unfold start, mbind at 1, M_bind at 1, loadDb in Hrun. cbv beta iota in Hrun.
  rewrite E, Hp in Hrun. apply Z.eqb_neq in Hr0, Hrs.
  rewrite Hr0, Hrs, Hold in Hrun. cbn [negb andb] in Hrun.
  set (db := put_user db1 (String_of_Z (start_from ctx)) (set_referredBy (Some r) old))
    in *.
  set (note := sendMessage (Num r)
                 (MsgNewReferral (display_username (start_username ctx)) (start_from ctx)))
    in *.
  destruct (tg_logged_run env note
              {| disk := Some db; ticks := ticks w;
                 trace := trace w ++ [WriteEv db true] |}) as [ok Hnote].
  rewrite (run_bind_ret _ _ w tt _
             (eq_trans (run_bind_ret _ _ w tt _ (ledger_saved env db w Hw)) Hnote))
    in Hrun.
  match type of Hrun with context [ignore (tg env (reply MsgWelcome)) ?w0] =>
    destruct (reply_run env MsgWelcome w0) as (o2 & w2 & Hr & Htr & Hd) end.
  rewrite Hr in Hrun. injection Hrun as <- <-.
  eexists db, ok, _, o2, w2. split; [done|]. split; [|split; [|split; [exact Hd|]]].
  - simpl. apply lookup_insert_eq.
  - intros k Hk. simpl. rewrite lookup_insert_ne by done. by apply Hframe.
  - rewrite Htr. simpl. rewrite <- !app_assoc. done.
Qed.

(** X20. The referrer hears of a signup exactly when the link is recorded,
    for the payloads the bot itself hands out. A [/start] without payload,
    or with text that does not begin with [ref_], only welcomes the user.
    So does one with the code of [getReferralCode r] when [r] is [0] or
    the sender, or when the sender already has a link: no write and no
    notice. With such a code of another user and no link yet, the link is
    written to the file (nothing else in it changes), then the referrer
    is told, then the user is welcomed, whether or not the notice went
    through. *)
Theorem start_flow (env : Env) (ctx : StartCtx) (w : World) :
  let key := String_of_Z (start_from ctx) in
  let old := default zero_user (ledger w !! key) in
  let welcome := reply MsgWelcome in
  let only_welcome :=
    exists o w',
      start env ctx w = (o, w') /\ disk w' = disk w /\
      trace w' = (trace w ++ [TgEv welcome
                                (resolved (transport env (length (trace w)) welcome))])%list in
  (startPayload ctx = None -> only_welcome) /\
  (forall t, startPayload ctx = Some t -> strip_prefix "ref_" t = None -> only_welcome) /\
  (forall r, startPayload ctx = Some (getReferralCode r) ->
   r = 0 \/ r = start_from ctx \/ truthy (referredBy old) = true -> only_welcome) /\
  (forall r, startPayload ctx = Some (getReferralCode r) ->
   r <> 0 -> r <> start_from ctx -> truthy (referredBy old) = false ->
   fs_write_ok env (length (trace w)) = true ->
   exists db ok ok' o w',
     start env ctx w = (o, w') /\
     users db !! key = Some (set_referredBy (Some r) old) /\
     (forall k, k <> key -> users db !! k = ledger w !! k) /\
     disk w' = Some db /\
     trace w'
     = (trace w ++ [WriteEv db true;
                    TgEv (sendMessage (Num r)
                            (MsgNewReferral (display_username (start_username ctx))
                               (start_from ctx))) ok;
                    TgEv welcome ok'])%list).
Proof.
  intros key old welcome only_welcome.
  split; [|split; [|split]].
  - intros Hp. apply start_quiet. by rewrite Hp.
  - intros t Hp Ht. apply start_quiet. rewrite Hp. unfold referral_of_payload. by rewrite Ht.
  - intros r Hp Hcase. apply start_quiet. rewrite Hp, referral_of_own_code.
    fold key old. destruct Hcase as [-> | [-> | ->]].
    + done.
    + by rewrite Z.eqb_refl, andb_false_r.
    + by rewrite andb_false_r.
  - intros r Hp. apply start_linking. by rewrite Hp, referral_of_own_code.
Qed.

Lemma start_flow_witness :
  exists db o w',
    start (env_at cfg_channel 2000000000)
      {| start_from := 1004; start_username := None; startPayload := Some "ref_1001" |}
      (world_of (Some db_sample)) = (o, w') /\
    referredBy <$> users db !! "1004" = Some (Some 1001) /\
    trace w' = [WriteEv db true;
                TgEv (sendMessage (Num 1001) (MsgNewReferral "(sin username)" 1004)) true;
                TgEv (reply MsgWelcome) true].
Proof.
  destruct (start_flow (env_at cfg_channel 2000000000)
              {| start_from := 1004; start_username := None;
                 startPayload := Some "ref_1001" |}
              (world_of (Some db_sample))) as (_ & _ & _ & H).
  destruct (H 1001) as (db & ok & ok' & o & w' & H1 & H2 & _ & H4 & H5);
    [reflexivity | lia | simpl; lia | vm_compute; reflexivity | reflexivity |].
  exists db, o, w'. split; [exact H1|]. split.
  - change (String_of_Z (start_from _)) with "1004" in H2. by rewrite H2.
  - rewrite H5. revert H1 H5. vm_compute. intros [= <- <-] [= <- <- <-]. reflexivity.
Defined.

(** ** The sweep and what is stored meanwhile *)

Lemma sweep_loop_async_idle env others ch now entries db changed w :
  (forall k u, (k, u) ∈ entries -> stale now u = false) ->
  sweep_loop_async env others ch now entries db changed w = (Ret (db, changed), w).
Proof.
  induction entries as [|[k d] rest IH]; intros Hin; [done|].
  simpl. assert (stale now d = false) as Hd by (apply (Hin k); left).
  unfold stale in Hd.
  destruct (truthy (expiresAt d)); simpl in *; [rewrite Hd|];
    apply IH; intros k' u' H'; apply (Hin k'); by right.
Qed.

(** X18. What a sweep writes is computed from the ledger it loaded at its
    start, whatever the handlers of other updates stored while it was
    waiting for its transport calls. When some record had lapsed and the
    file can be written, the sweep ends with the file holding the ledger
    it loaded, with [expiresAt] cleared in the lapsed records: records and
    fields written in between are not in it. When no record had lapsed,
    the sweep makes no call, does not wait and does not write. *)
Theorem sweep_saves_loaded_copy (env : Env) (others : World -> World) (w : World) :
  truthy_str (CHANNEL_ID (cfg env)) = true ->
  (forall n, fs_write_ok env n = true) ->
  let now := clock env (ticks w) in
  exists w',
    checkExpirations_async env others w = (Ret tt, w') /\
    ((exists k u, ledger w !! k = Some u /\ stale now u = true) ->
     disk w' = Some {| users := sweep_record now <$> ledger w |}) /\
    ((forall k u, ledger w !! k = Some u -> stale now u = false) ->
     w' = {| disk := disk w; ticks := S (ticks w); trace := trace w |}).
Proof.
  intros Hch Hfs now. unfold checkExpirations_async.
  destruct (CHANNEL_ID (cfg env)) as [[|c ch]|]; try done.
  unfold mbind at 1, M_bind at 1, loadDb. unfold mbind at 1, M_bind at 1, getNow.
  fold now. set (db := default empty_db (disk w)).
  set (w0 := {| disk := disk w; ticks := S (ticks w); trace := trace w |}).
  change (ledger w) with (users db).
  unfold mbind, M_bind.
  destruct (sweep_loop_async_all env others (String c ch) now db w0)
    as (db' & changed' & w' & Hloop & Hsame & Hst & Hdb').
  rewrite Hloop. destruct changed'.
  - rewrite ledger_saved by apply Hfs. eexists. split; [reflexivity|]. split.
    + intros _. simpl. f_equal. destruct db' as [m]. simpl in Hdb'. by rewrite Hdb'.
    + intros Hfresh. exfalso.
      rewrite sweep_loop_async_idle in Hloop; [by injection Hloop|].
      intros k u Hku. apply (Hfresh k). by apply elem_of_map_to_list.
  - rewrite (Hsame eq_refl). exists w0. split; [done|]. split; [|done].
    intros Hsome. by apply Hst in Hsome.
Qed.

Lemma sweep_saves_loaded_copy_witness :
  exists w' db,
    checkExpirations_async (env_at cfg_channel 2000000000)
      (arriving 1 (grantSubscription (env_at cfg_channel 2000000000) bob_id 30))
      (world_of (Some db_sample)) = (Ret tt, w') /\
    trace w' !! 1%nat = Some (WriteEv db true) /\
    expiresAt <$> users db !! "1002" = Some (Some (2000000000 + 30 * 86400000)) /\
    expiresAt <$> ledger w' !! "1002" = Some None.
Proof.
  destruct (sweep_saves_loaded_copy (env_at cfg_channel 2000000000)
              (arriving 1 (grantSubscription (env_at cfg_channel 2000000000) bob_id 30))
              (world_of (Some db_sample))) as (w' & Hrun & Hstale & _);
    [reflexivity | reflexivity |].
  assert (disk w' = Some {| users := sweep_record 2000000000 <$> users db_sample |}) as Hd.
  { apply Hstale. exists "1003", carol. split; vm_compute; reflexivity. }
  exists w'. eexists. split; [exact Hrun|]. split; [|split].
  - revert Hrun. vm_compute. intros [= <-]. reflexivity.
  - vm_compute. reflexivity.
  - unfold ledger. rewrite Hd. vm_compute. reflexivity.
Defined.

(** ** The guards of the referral link *)

Lemma start_linked env ctx w u r :
  ledger w !! String_of_Z (start_from ctx) = Some u ->
  referredBy u = Some r -> r <> 0 ->
  disk (start env ctx w).2 = disk w.
Proof.
  intros Hu Hr Hr0.
  assert (keeps_disk (ignore (tg env (reply MsgWelcome)))) as Hk by keeps_disk_auto.
  assert (truthy (referredBy u) = true) as Ht.
  { rewrite Hr. simpl. by apply negb_true_iff, Z.eqb_neq. }
  unfold start, mbind at 1, M_bind at 1, loadDb. cbv beta iota.
  unfold ensureUser, get_user.
  change (users (default empty_db (disk w))) with (ledger w).
  change (String_of_num (Num (start_from ctx))) with (String_of_Z (start_from ctx)).
  rewrite Hu, Ht. cbn [negb].
  destruct (referral_of_payload (startPayload ctx)) as [[|refId]|]; try apply Hk.
  destruct (negb (refId =? 0) && negb (refId =? start_from ctx)); apply Hk.
Qed.

(** X21. What the code does for a link to be set once and never to the
    user. The user's own code decodes to the user's identity, and a
    [/start] whose payload decodes to the sender writes nothing; a
    [/start] by a user whose [referredBy] already holds a non-zero
    identity writes nothing either, whatever the payload. No handler
    stores a record that names itself as referrer: if the file holds none,
    it holds none after any operation, and none after a sweep during
    whose awaits other such handlers ran. *)
Theorem referral_link_guards (env : Env) :
  (forall uid, referral_of_payload (Some (getReferralCode uid)) = Some (Num uid)) /\
  (forall ctx w,
     referral_of_payload (startPayload ctx) = Some (Num (start_from ctx)) ->
     disk (start env ctx w).2 = disk w) /\
  (forall ctx w u r,
     ledger w !! String_of_Z (start_from ctx) = Some u ->
     referredBy u = Some r -> r <> 0 ->
     disk (start env ctx w).2 = disk w) /\
  (forall op w, no_self_ref (ledger w) -> no_self_ref (ledger (handler env op w).2)) /\
  (forall others w,
     (forall w0, no_self_ref (ledger w0) -> no_self_ref (ledger (others w0))) ->
     no_self_ref (ledger w) ->
     no_self_ref (ledger (checkExpirations_async env others w).2)).
Proof.
  split; [apply referral_of_own_code|]. split; [apply start_own_code|].
  split; [apply start_linked|]. split.
  - intros op w Hw.
    refine (proj1 (safe_handler no_self_ref env op _ w Hw)).
    intros ctx. apply no_self_ref_start.
  - intros others w Hothers Hw.
    by apply (safe_checkExpirations_async no_self_ref env others Hothers w).
Qed.

Lemma referral_link_guards_witness :
  disk (start (env_at cfg_channel 2000000000)
          {| start_from := 1002; start_username := None; startPayload := Some "ref_1003" |}
          (world_of (Some db_sample))).2
  = Some db_sample.
Proof.
  destruct (referral_link_guards (env_at cfg_channel 2000000000)) as (_ & _ & H & _).
  apply (H {| start_from := 1002; start_username := None; startPayload := Some "ref_1003" |}
           (world_of (Some db_sample)) bob 1001);
    [vm_compute; reflexivity | reflexivity | lia].
Defined.
